(** * GraphCDN: the caching handler in front of a GraphQL origin

    A shallow embedding of [src/utils.ts] and [src/routes/graphql.ts].

    - JavaScript strings are [string]s, header bags and plain objects used
      as maps are [gmap string string], numbers that hold integers are [Z];
      a number that [parseInt] reads is a [JS.number]: an integer that a
      double holds, or [Infinity].
    - The handler is asynchronous and effectful: it reads the clock, asks
      the schema store, hashes, queries and writes the cache store and
      calls the origin.  Every such call is logged in a trace of [Event]s
      and answers what the environment of the request ([Env]) says; a
      thrown exception is the [Throw] case of [Result].
    - Functions the handler imports but that are not part of the two
      source files (the GraphQL parser, [normalizeDocument], [isMutation],
      [hasIntersectedTypes], [SHA256], ...) are the fields of [Platform].
    - Header names are in lower case, as the [Headers] class keeps them
      and as the enumeration [Headers] of [src/utils.ts] spells them. *)

From Stdlib Require Import ZArith QArith Qround String Ascii List Lia.
From stdpp Require Import base option list gmap strings pretty.

Local Open Scope string_scope.
Local Open Scope Z_scope.

(** ** ECMAScript built-ins used by the sources *)

Module JS.

(** [s.startsWith(p)], the test a regular expression or [indexOf] makes at
    one position. *)
Fixpoint startsWith (p s : string) : bool :=
  match p with
  | EmptyString => true
  | String a p' =>
      match s with
      | EmptyString => false
      | String b s' => if Ascii.eqb a b then startsWith p' s' else false
      end
  end.

(** [hay.indexOf(needle)] counted from position [i]: the first position
    where [needle] starts, [-1] when there is none. *)
Fixpoint indexOf_from (needle hay : string) (i : Z) : Z :=
  if startsWith needle hay then i
  else match hay with
       | EmptyString => -1
       | String _ hay' => indexOf_from needle hay' (i + 1)
       end.

Definition indexOf (hay needle : string) : Z := indexOf_from needle hay 0.

(** [hay.includes(needle)] *)
Fixpoint includes (hay needle : string) : bool :=
  if startsWith needle hay then true
  else match hay with
       | EmptyString => false
       | String _ hay' => includes hay' needle
       end.

(** [!!~n]: bitwise complement, then truthiness of the number. *)
Definition truthy_lnot (n : Z) : bool := negb (Z.lnot n =? 0).

(** [x || ''] for a header value that may be [null]. *)
Definition or_empty (x : option string) : string := default EmptyString x.

(** Truthiness of a string that may be missing: [undefined], [null] and
    the empty string are falsy. *)
Definition truthy (x : option string) : bool :=
  match x with
  | Some (String _ _) => true
  | _ => false
  end.

(** Canonicalize of a case-insensitive regular expression without the
    unicode flag: ASCII letters are compared in upper case. *)
Definition canonicalize (c : ascii) : ascii :=
  let n := N_of_ascii c in
  if ((97 <=? n) && (n <=? 122))%N then ascii_of_N (n - 32) else c.

Fixpoint startsWith_i (p s : string) : bool :=
  match p with
  | EmptyString => true
  | String a p' =>
      match s with
      | EmptyString => false
      | String b s' =>
          if Ascii.eqb (canonicalize a) (canonicalize b)
          then startsWith_i p' s' else false
      end
  end.

(** [/(alt1|alt2|...)/i.test(s)] for literal alternatives. *)
Fixpoint test_alternatives_i (alts : list string) (s : string) : bool :=
  if existsb (fun p => startsWith_i p s) alts then true
  else match s with
       | EmptyString => false
       | String _ s' => test_alternatives_i alts s'
       end.

(** [\d] *)
Definition is_digit (c : ascii) : bool :=
  let n := N_of_ascii c in ((48 <=? n) && (n <=? 57))%N.

Definition digit_value (c : ascii) : Z := Z.of_N (N_of_ascii c) - 48.

(** [(\d+)] is greedy: the longest run of digits at the front of [s],
    and what follows it. *)
Fixpoint span_digits (s : string) : string * string :=
  match s with
  | String c s' =>
      if is_digit c
      then let '(ds, rest) := span_digits s' in (String c ds, rest)
      else (EmptyString, s)
  | EmptyString => (EmptyString, EmptyString)
  end.

(** The numbers that hold a time to live: an integer, or [Infinity]. *)
Inductive number :=
| Int (z : Z)
| Infinity.

(** [a > b] *)
Definition gtb (a b : number) : bool :=
  match a, b with
  | Int x, Int y => x >? y
  | Infinity, Int _ => true
  | _, Infinity => false
  end.

(** The double of an integer [n] that is not negative: [n] itself below
    2^53; above, [n] rounded to 53 significant bits, to the nearest and in
    a tie to the even one, and [Infinity] when that reaches 2^1024. *)
Definition to_double (n : Z) : number :=
  if n <? 2 ^ 53 then Int n
  else
    let ulp := 2 ^ (Z.log2 n - 52) in
    let q := n / ulp in
    let r := n mod ulp in
    let q' :=
      if (ulp <? 2 * r) || ((2 * r =? ulp) && Z.odd q) then q + 1 else q in
    if 2 ^ 1024 <=? q' * ulp then Infinity else Int (q' * ulp).

(** The integer that a run of decimal digits writes. *)
Fixpoint parseInt_acc (acc : Z) (ds : string) : Z :=
  match ds with
  | EmptyString => acc
  | String c ds' => parseInt_acc (10 * acc + digit_value c) ds'
  end.

(** [parseInt(ds)] on a run of decimal digits: the double of the integer
    that the digits write.  (Past the 20th significant digit the language
    lets an engine read a 0 for a digit; V8 rounds the integer itself.) *)
Definition parseInt (ds : string) : number := to_double (parseInt_acc 0 ds).

(** The text after prefix [p] when [s] starts with it. *)
Fixpoint stripPrefix (p s : string) : option string :=
  match p with
  | EmptyString => Some s
  | String a p' =>
      match s with
      | EmptyString => None
      | String b s' => if Ascii.eqb a b then stripPrefix p' s' else None
      end
  end.

(** One attempt of [/lit(\d+)/] at the front of [s]: the capture group. *)
Definition match_digits_at (lit s : string) : option string :=
  match stripPrefix lit s with
  | Some rest =>
      match span_digits rest with
      | (String d ds, _) => Some (String d ds)
      | _ => None
      end
  | None => None
  end.

(** [s.match(/lit(\d+)/)]: the capture group of the leftmost match, when
    there is one. *)
Fixpoint match_literal_digits (lit s : string) : option string :=
  match match_digits_at lit s with
  | Some ds => Some ds
  | None =>
      match s with
      | EmptyString => None
      | String _ s' => match_literal_digits lit s'
      end
  end.

(** [s.split(sep)] for a separator of one character: the pieces between
    the separators, one more than there are separators. *)
Fixpoint split_on (sep : ascii) (s : string) : list string :=
  match s with
  | EmptyString => [EmptyString]
  | String c s' =>
      if Ascii.eqb c sep then EmptyString :: split_on sep s'
      else match split_on sep s' with
           | piece :: pieces => String c piece :: pieces
           | [] => [String c EmptyString]
           end
  end.

(** [Math.round(x)]: the nearest integer, ties towards plus infinity. *)
Definition Math_round (x : Q) : Z := Qfloor (x + (1 # 2))%Q.

(** Number to string, as [toString()] and template literals print it:
    an integer as its decimal digits, with a minus sign when negative.
    (JavaScript prints an integer up to 2^53 this way; a larger double
    prints the shortest digits that read back to it, in exponent form
    from 10^21 on.) *)
Definition toString (n : number) : string :=
  match n with
  | Int z => pretty z
  | Infinity => "Infinity"
  end.

(** A double quote, for the texts that contain one. *)
Definition dquote : string := String (ascii_of_N 34) EmptyString.

End JS.

(** An integer is used as a number where one is expected. *)
Coercion JS.Int : Z >-> JS.number.

(** ** The web platform's [Response] *)

(** What a response carries as its body: a text, the object
    [{ error: msg }], or an error value that was caught. *)
Inductive Payload :=
| Text (s : string)
| ErrorObject (msg : string)
| Caught (e : string).

Record Response := mkResponse {
  status : Z;
  headers : gmap string string;
  body : Payload
}.

(** ** src/utils.ts *)

Module Headers.
Definition gcdnCache : string := "gcdn-cache".
Definition setCookie : string := "set-cookie".
Definition contentType : string := "content-type".
Definition cacheControl : string := "cache-control".
Definition date : string := "date".
Definition age : string := "age".
Definition xCache : string := "x-cache".
Definition authorization : string := "authorization".
Definition accessControlAllowCredentials : string := "access-control-allow-credentials".
Definition accessControlAllowHeaders : string := "access-control-allow-headers".
Definition accessControlAllowMethods : string := "access-control-allow-methods".
Definition accessControlAllowOrigin : string := "access-control-allow-origin".
Definition accessControlExposeHeaders : string := "access-control-expose-headers".
Definition accessControlMaxAge : string := "access-control-max-age".
End Headers.

Module CacheHitHeader.
Definition MISS : string := "MISS".
Definition HIT : string := "HIT".
Definition PASS : string := "PASS".
Definition ERROR : string := "ERROR".
End CacheHitHeader.

(** [header.match(/max-age=(\d+)/)], then [parseInt(matches[1])] or [-1]. *)
Definition parseMaxAge (header : string) : JS.number :=
  match JS.match_literal_digits "max-age=" header with
  | Some ds => JS.parseInt ds
  | None => JS.Int (-1)
  end.

Definition isResponseCachable (res : Response) : bool :=
  if status res =? 206 then false
  else
    let vary := JS.or_empty (headers res !! "vary") in
    if JS.truthy_lnot (JS.indexOf vary "*") then false
    else
      let ccontrol := JS.or_empty (headers res !! Headers.cacheControl) in
      if JS.test_alternatives_i ["no-cache"; "no-store"] ccontrol then false
      else true.

Definition isResponsePrivate (res : Response) : bool :=
  let ccontrol := JS.or_empty (headers res !! Headers.cacheControl) in
  if JS.test_alternatives_i ["private"] ccontrol then true
  else false.

(** ** Effects of the handler *)

(** The outcome of a call that may throw. *)
Inductive Result (A : Type) :=
| Ok (a : A)
| Throw (e : string).
Arguments Ok {A} a.
Arguments Throw {A} e.

(** The cache store's records ([../stores/QueryCache]). *)
Record CachedEntry := mkEntry {
  entry_headers : gmap string string;
  entry_body : string
}.

Record Metadata := mkMetadata {
  createdAt : Z;
  expirationTtl : Z
}.

(** [{ value, metadata }] as [find] answers it; either may be [null]. *)
Record Found := mkFound {
  value : option CachedEntry;
  metadata : option Metadata
}.

(** The decoded JSON body of the request. *)
Record RequestBody := mkBody {
  query : option string;
  variables : option string
}.

Record Request := mkRequest {
  req_body : RequestBody;
  req_headers : gmap string string;
  req_method : string
}.

(** The calls that leave the handler, in the order they are made. *)
Inductive Event :=
| EvLatest
| EvHash (input : string)
| EvFind (key : string)
| EvFetch (url : string) (payload : RequestBody)
| EvSave (key : string) (entry : CachedEntry) (ttl : JS.number)
| EvLog (msg : string).

(** A computation of the handler: its result, or the exception that ended
    it, and the calls made up to there. *)
Definition M (A : Type) : Type := Result A * list Event.

Definition ret {A} (a : A) : M A := (Ok a, []).

Definition bind {A B} (m : M A) (f : A -> M B) : M B :=
  match m with
  | (Ok a, t) => let '(r, t') := f a in (r, (t ++ t')%list)
  | (Throw e, t) => (Throw e, t)
  end.

(** A call that cannot be observed from outside (a pure helper). *)
Definition lift {A} (r : Result A) : M A := (r, []).

(** An observable call [ev] that answers [r]. *)
Definition call {A} (ev : Event) (r : Result A) : M A := (r, [ev]).

(** [try { m } catch (error) { ... }]: the exception becomes a value. *)
Definition attempt {A} (m : M A) : M (Result A) :=
  match m with
  | (r, t) => (Ok r, t)
  end.

Notation "'let*' x ':=' m 'in' k" := (bind m (fun x => k))
  (at level 10, x pattern, m at level 100, k at level 200, only parsing).

(** ** What the handler imports *)

(** The imported functions that are not part of the two source files, and
    the two places where the runtime decides what the code does: what an
    object spread copies out of a [Response] and out of its [Headers]. *)
Record Platform := mkPlatform {
  DocumentNode : Type;
  Schema : Type;
  (** [parse(text, { noLocation: true })] of the graphql package *)
  parse : string -> Result DocumentNode;
  (** [../graphql-utils] *)
  hasIntersectedTypes : Schema -> DocumentNode -> list string -> Result bool;
  normalizeDocument : string -> Result string;
  isMutation : DocumentNode -> Result bool;
  (** [SHA256] of worktop/crypto *)
  SHA256 : string -> string;
  (** [new Date(ms).toUTCString()] *)
  toUTCString : Z -> string;
  (** [JSON.stringify(await response.json())] *)
  json_text : Response -> Result string;
  (** the [status] that [...response] hands to the new response, if any *)
  spread_status : Response -> option Z;
  (** the entries that [...response.headers] copies *)
  spread_headers : Response -> gmap string string
}.

(** The constants read from the environment when the module loads:
    [GRAPHQL_URL], [parseInt(DEFAULT_TTL)], taken to be an integer, and
    [PRIVATE_TYPES]. *)
Record Config := mkConfig {
  origin : string;
  defaultMaxAgeInSeconds : Z;
  PRIVATE_TYPES : string
}.

(** Line 24: [PRIVATE_TYPES.split(',')] *)
Definition privateTypes (cfg : Config) : list string :=
  JS.split_on "," (PRIVATE_TYPES cfg).

(** What the world answers during one request: the two readings of the
    clock, the schema store, the cache store and the origin. *)
Record Env (P : Platform) := mkEnv {
  now_start : Z;
  now_hit : Z;
  latest : Result (option (Schema P));
  find : string -> Result Found;
  save : string -> CachedEntry -> JS.number -> Result bool;
  fetch : string -> RequestBody -> gmap string string -> string -> Result Response
}.
Arguments now_start {P} _.
Arguments now_hit {P} _.
Arguments latest {P} _.
Arguments find {P} _ _.
Arguments save {P} _ _ _ _.
Arguments fetch {P} _ _ _ _ _.

(** ** Objects and responses *)

(** [{ ...a, ...b }]: the entries of [b] win. *)
Definition spread (a b : gmap string string) : gmap string string := b ∪ a.

(** An object literal: later entries win. *)
Definition object (entries : list (string * string)) : gmap string string :=
  fold_left (fun m kv => <[kv.1 := kv.2]> m) entries ∅.

(** [res.send(code, data, headers)] of worktop with the headers the
    handler passes (worktop adds the content type and length of [data]
    when they are not given). *)
Definition send (code : Z) (data : Payload) (hs : gmap string string) : Response :=
  mkResponse code hs data.

(** [new Response(text, { status, headers })]; the status is 200 when the
    init object has none. *)
Definition new_Response (text : string) (st : option Z)
    (hs : gmap string string) : Response :=
  mkResponse (default 200 st) hs (Text text).

(** [res.headers.set(name, v)] *)
Definition headers_set (name v : string) (res : Response) : Response :=
  mkResponse (status res) (<[name := v]> (headers res)) (body res).

(** ** src/routes/graphql.ts *)

Section Handler.

Context (P : Platform) (cfg : Config).

(** Lines 35-41.  [now] is the reading of the clock at line 37. *)
Definition defaultResponseHeaders (now : Z) : gmap string string :=
  object [ (Headers.contentType, "application/json");
           (Headers.date, toUTCString P now);
           (Headers.accessControlMaxAge, "300");
           (Headers.xCache, CacheHitHeader.MISS);
           (Headers.gcdnCache, CacheHitHeader.MISS) ].

(** Lines 49-60, the body of the [try]: the values of [hasPrivateTypes],
    [isMutationRequest] and [content] when no call throws. *)
Definition classify (env : Env P) (queryDocumentNode : DocumentNode P)
    (text : string) : M (bool * bool * string) :=
  let* schema := call EvLatest (latest env) in
  let* hasPrivateTypes :=
    match schema with
    | Some sch =>
        if 0 <? Z.of_nat (length (privateTypes cfg))
        then lift (hasIntersectedTypes P sch queryDocumentNode (privateTypes cfg))
        else ret false
    | None => ret false
    end in
  let* content := lift (normalizeDocument P text) in
  let* isMutationRequest := lift (isMutation P queryDocumentNode) in
  ret (hasPrivateTypes, isMutationRequest, content).

(** Lines 73-83: [querySignature] starts as the empty string and is
    replaced by a digest unless the request is a mutation. *)
Definition derive_signature (authHeader content : string)
    (isPrivateAndCacheable isMutationRequest : bool) : M string :=
  if isPrivateAndCacheable
  then call (EvHash (authHeader +:+ content)) (Ok (SHA256 P (authHeader +:+ content)))
  else if negb isMutationRequest
  then call (EvHash content) (Ok (SHA256 P content))
  else ret EmptyString.

(** Line 100 and lines 103-105: the age in seconds, and the number that
    is printed into the header. *)
Definition age_seconds (now : Z) (md : Metadata) : Z :=
  JS.Math_round (inject_Z (now - createdAt md) / inject_Z 1000)%Q.

Definition age_value (now : Z) (md : Metadata) : Z :=
  let age := age_seconds now md in
  if age >? expirationTtl md then expirationTtl md else age.

(** Lines 92-113: the response built from a cached entry. *)
Definition serve_hit (env : Env P) (defaults : gmap string string)
    (found : Found) (cached : CachedEntry) : Response :=
  let res := new_Response (entry_body cached) None
               (spread (entry_headers cached) defaults) in
  let res :=
    match metadata found with
    | Some md =>
        headers_set Headers.age (JS.toString (age_value (now_hit env) md)) res
    | None => res
    end in
  let res := headers_set Headers.gcdnCache CacheHitHeader.HIT res in
  headers_set Headers.xCache CacheHitHeader.HIT res.

(** Lines 88-115: the lookup, skipped for a mutation. *)
Definition lookup (env : Env P) (defaults : gmap string string)
    (isMutationRequest : bool) (querySignature : string) : M (option Response) :=
  if negb isMutationRequest then
    let* found := call (EvFind querySignature) (find env querySignature) in
    match value found with
    | Some cached => ret (Some (serve_hit env defaults found cached))
    | None => ret None
    end
  else ret None.

(** Lines 138-142 *)
Definition choose_maxAge (maxAgeHeaderValue : option string) : JS.number :=
  if JS.truthy maxAgeHeaderValue then
    let parsedMaxAge := parseMaxAge (JS.or_empty maxAgeHeaderValue) in
    if JS.gtb parsedMaxAge (JS.Int (-1)) then parsedMaxAge
    else JS.Int (defaultMaxAgeInSeconds cfg)
  else JS.Int (defaultMaxAgeInSeconds cfg).

(** Lines 155 and 160 *)
Definition cache_control_text (scope : string) (maxAge : JS.number) : string :=
  scope +:+ ", max-age=" +:+ JS.toString maxAge
        +:+ ", stale-while-revalidate=" +:+ JS.toString maxAge.

(** Line 200; a missing content type prints as [null]. *)
Definition unsupported_text (contentType : option string) : string :=
  "Unsupported content-type " +:+ JS.dquote +:+ default "null" contentType
    +:+ JS.dquote +:+ " from origin " +:+ JS.dquote +:+ origin cfg
    +:+ JS.dquote +:+ ".".

(** Lines 120-206: the origin is asked, and its answer is stored and
    served, passed through, or refused. *)
Definition refresh (env : Env P) (req : Request) (defaults : gmap string string)
    (isMutationRequest isPrivateAndCacheable : bool)
    (querySignature : string) : M Response :=
  let* response :=
    call (EvFetch (origin cfg) (req_body req))
         (fetch env (origin cfg) (req_body req) (req_headers req) (req_method req)) in
  let isCacheable :=
    (negb isMutationRequest && isResponseCachable response)
    || isPrivateAndCacheable in
  let contentType := headers response !! Headers.contentType in
  if match contentType with
     | Some ct => JS.includes ct "application/json"
     | None => false
     end
  then
    let* results := lift (json_text P response) in
    let maxAgeHeaderValue := headers response !! Headers.cacheControl in
    if isCacheable then
      let maxAge := choose_maxAge maxAgeHeaderValue in
      let res := new_Response results (spread_status P response)
                   (spread (spread_headers P response) defaults) in
      let res :=
        if isPrivateAndCacheable
        then headers_set Headers.cacheControl (cache_control_text "private" maxAge) res
        else headers_set Headers.cacheControl (cache_control_text "public" maxAge) res in
      let serializableHeaders := headers res in
      let stored := mkEntry serializableHeaders results in
      let* result :=
        call (EvSave querySignature stored maxAge)
             (save env querySignature stored maxAge) in
      let* _ :=
        if result then ret tt
        else call (EvLog "query could not be stored in cache") (Ok tt) in
      ret (headers_set Headers.gcdnCache CacheHitHeader.PASS res)
    else
      ret (new_Response results (spread_status P response)
             (<[Headers.gcdnCache := CacheHitHeader.PASS]>
                (spread (spread_headers P response) defaults)))
  else
    ret (send 415 (ErrorObject (unsupported_text contentType))
           (<[Headers.gcdnCache := CacheHitHeader.PASS]> defaults)).

(** Line 31 *)
Definition no_query_text : string :=
  "Request has no " +:+ JS.dquote +:+ "query" +:+ JS.dquote +:+ " field.".

(** Lines 62-68: the headers of the answer to a caught exception. *)
Definition caught_headers (defaults : gmap string string) : gmap string string :=
  spread defaults
    (object [ (Headers.gcdnCache, CacheHitHeader.ERROR);
              (Headers.xCache, CacheHitHeader.HIT) ]).

(** Lines 26-207 *)
Definition graphql (env : Env P) (req : Request) : M Response :=
  let originalBody := req_body req in
  if negb (JS.truthy (query originalBody)) then
    ret (send 400 (ErrorObject no_query_text) ∅)
  else
    let text := JS.or_empty (query originalBody) in
    let defaults := defaultResponseHeaders (now_start env) in
    let* queryDocumentNode := lift (parse P text) in
    let* classified := attempt (classify env queryDocumentNode text) in
    match classified with
    | Throw error => ret (send 400 (Caught error) (caught_headers defaults))
    | Ok (hasPrivateTypes, isMutationRequest, content) =>
        let authHeader := JS.or_empty (req_headers req !! Headers.authorization) in
        let isPrivateAndCacheable := negb isMutationRequest && hasPrivateTypes in
        let* querySignature :=
          derive_signature authHeader content isPrivateAndCacheable
            isMutationRequest in
        let* hit := lookup env defaults isMutationRequest querySignature in
        match hit with
        | Some res => ret res
        | None =>
            refresh env req defaults isMutationRequest isPrivateAndCacheable
              querySignature
        end
    end.

(** The same request served once per environment of a list, as when a
    client repeats it. *)
Definition graphql_repeated (envs : list (Env P)) (req : Request)
    : list (M Response) :=
  map (fun env => graphql env req) envs.

End Handler.

(** ** The words of the specification

    The properties below are stated with these notions, which are defined
    on their own and not through the scanning functions of [JS]. *)

Module Spec.

(** [needle] occurs in [hay]. *)
Definition contains (hay needle : string) : Prop :=
  ∃ pre post, hay = pre +:+ needle +:+ post.

Definition lower (c : ascii) : ascii :=
  let n := N_of_ascii c in
  if ((65 <=? n) && (n <=? 90))%N then ascii_of_N (n + 32) else c.

Fixpoint toLowerCase (s : string) : string :=
  match s with
  | EmptyString => EmptyString
  | String c s' => String (lower c) (toLowerCase s')
  end.

(** [needle] occurs in [hay] when the case of letters is ignored. *)
Definition contains_i (hay needle : string) : Prop :=
  ∃ pre w post, hay = pre +:+ w +:+ post ∧ toLowerCase w = toLowerCase needle.

Fixpoint all_digits (s : string) : bool :=
  match s with
  | EmptyString => true
  | String c s' => JS.is_digit c && all_digits s'
  end.

Definition starts_with_digit (s : string) : bool :=
  match s with
  | String c _ => JS.is_digit c
  | EmptyString => false
  end.





(** A number that is not below zero. *)
Definition not_negative (x : JS.number) : Prop :=
  match x with
  | JS.Int z => 0 <= z
  | JS.Infinity => True
  end.

(** [round(x)] of a quotient [n / d] of integers, [d] positive: the
    integer [r] with [r - 1/2 <= n / d < r + 1/2]. *)
Definition is_rounding (n d r : Z) : Prop :=
  (2 * r - 1) * d <= 2 * n < (2 * r + 1) * d.

(** The calls to the cache store in a trace, with their keys. *)
Definition store_keys (t : list Event) : list string :=
  omap (fun ev => match ev with
                  | EvFind k => Some k
                  | EvSave k _ _ => Some k
                  | _ => None
                  end) t.

Definition is_save (ev : Event) : bool :=
  match ev with EvSave _ _ _ => true | _ => false end.

Definition is_hash (ev : Event) : bool :=
  match ev with EvHash _ => true | _ => false end.

Section Requests.

Context (P : Platform) (cfg : Config).

(** The query text of a request that has one. *)
Definition query_text (req : Request) : string :=
  JS.or_empty (query (req_body req)).

(** The identity token: the authorization credential as the caller sent
    it, the empty text when there is none. *)
Definition identity_token (req : Request) : string :=
  match req_headers req !! "authorization" with
  | Some credential => credential
  | None => EmptyString
  end.

(** The request reaches the state Classified: it has a query text, the
    text parses, and the classification ends with these three values. *)
Definition classified (env : Env P) (req : Request)
    (touchesPrivateType isMutation : bool) (normalizedQuery : string) : Prop :=
  JS.truthy (query (req_body req)) = true ∧
  ∃ doc, parse P (query_text req) = Ok doc ∧
         (classify P cfg env doc (query_text req)).1
         = Ok (touchesPrivateType, isMutation, normalizedQuery).

(** The request has a query text that parses, and a call of the
    classification throws [e]. *)
Definition classification_throws (env : Env P) (req : Request)
    (e : string) : Prop :=
  JS.truthy (query (req_body req)) = true ∧
  ∃ doc, parse P (query_text req) = Ok doc ∧
         (classify P cfg env doc (query_text req)).1 = Throw e.

(** The key of a request that is not a mutation: the digest of the
    identity token followed by the normalized query when the query
    touches a private type, of the normalized query alone otherwise. *)
Definition derived_key (req : Request) (touchesPrivateType : bool)
    (normalizedQuery : string) : string :=
  if touchesPrivateType
  then SHA256 P (identity_token req +:+ normalizedQuery)
  else SHA256 P normalizedQuery.

(** The text that is hashed into that key. *)
Definition hashed_text (req : Request) (touchesPrivateType : bool)
    (normalizedQuery : string) : string :=
  if touchesPrivateType
  then identity_token req +:+ normalizedQuery
  else normalizedQuery.

(** The time to live of a stored answer: the max-age of the origin when
    [parseMaxAge] finds one, the configured default otherwise. *)
Definition chosen_maxAge (response : Response) : JS.number :=
  let n := parseMaxAge (JS.or_empty (headers response !! "cache-control")) in
  if JS.gtb n (JS.Int (-1)) then n else JS.Int (defaultMaxAgeInSeconds cfg).

(** The answer of the origin as it is stored: the decoded body, and as
    headers what the response was built with (the default headers, over
    what the spread of the origin's headers copies) with the
    Cache-Control of the handler, private when the operation touches a
    private type and public otherwise. *)
Definition stored_answer (env : Env P) (touchesPrivateType : bool)
    (response : Response) (text : string) : CachedEntry :=
  mkEntry
    (<["cache-control" :=
         (if touchesPrivateType then "private" else "public")
           +:+ ", max-age=" +:+ JS.toString (chosen_maxAge response)
           +:+ ", stale-while-revalidate="
           +:+ JS.toString (chosen_maxAge response)]>
       (defaultResponseHeaders P (now_start env) ∪ spread_headers P response))
    text.

(** The cache store has no entry for the key. *)
Definition misses (env : Env P) (key : string) : Prop :=
  ∃ found, find env key = Ok found ∧ value found = None.

(** The origin answers [response], whose content type names JSON and
    whose body decodes to [text]. *)
Definition origin_answers_json (env : Env P) (req : Request)
    (response : Response) (text : string) : Prop :=
  fetch env (origin cfg) (req_body req) (req_headers req) (req_method req)
  = Ok response ∧
  (∃ ct, headers response !! "content-type" = Some ct ∧
         contains ct "application/json") ∧
  json_text P response = Ok text.

(** No response comes back only when the origin call or the decoding of
    its body throws [e]. *)
Definition origin_fails (env : Env P) (req : Request) (e : string) : Prop :=
  fetch env (origin cfg) (req_body req) (req_headers req) (req_method req)
  = Throw e ∨
  ∃ response,
    fetch env (origin cfg) (req_body req) (req_headers req) (req_method req)
    = Ok response ∧ json_text P response = Throw e.

End Requests.

End Spec.

(** ** A small platform to run the handler on *)

Module Demo.

Definition platform : Platform :=
  {| DocumentNode := string;
     Schema := list string;
     parse := fun text =>
       if JS.includes text "{" then Ok text else Throw "Syntax Error";
     hasIntersectedTypes := fun sch doc types =>
       Ok (existsb (fun t => JS.includes doc t) types);
     normalizeDocument := fun text => Ok text;
     isMutation := fun doc => Ok (JS.startsWith "mutation" doc);
     SHA256 := fun s => "sha256:" +:+ s;
     toUTCString := fun _ => "Thu, 01 Jan 1970 00:00:00 GMT";
     json_text := fun r =>
       match body r with
       | Text s => Ok s
       | _ => Throw "Unexpected token"
       end;
     spread_status := fun _ => None;
     spread_headers := fun _ => ∅ |}.

Definition config : Config :=
  {| origin := "https://origin.example/graphql";
     defaultMaxAgeInSeconds := 900;
     PRIVATE_TYPES := "viewer" |}.

Definition origin_json (cc : string) : Response :=
  mkResponse 200
    (object [ (Headers.contentType, "application/json; charset=utf-8");
              (Headers.cacheControl, cc) ])
    (Text "{}").

(** An empty cache in front of an origin that answers JSON with the
    cache control [cc]. *)
Definition env_miss (cc : string) : Env platform :=
  mkEnv platform 1000 1000
    (Ok (Some ["viewer"]))
    (fun _ => Ok (mkFound None None))
    (fun _ _ _ => Ok true)
    (fun _ _ _ _ => Ok (origin_json cc)).

(** A cache that holds an entry written at [created] with the time to
    live [ttl], read at the time [now]. *)
Definition env_hit (created ttl now : Z) : Env platform :=
  mkEnv platform now now
    (Ok None)
    (fun _ =>
       Ok (mkFound (Some (mkEntry (object [(Headers.cacheControl, "public")]) "{}"))
                   (Some (mkMetadata created ttl))))
    (fun _ _ _ => Ok true)
    (fun _ _ _ _ => Throw "origin is down").

(** A schema store that fails. *)
Definition env_no_schema : Env platform :=
  mkEnv platform 1000 1000
    (Throw "KV unavailable")
    (fun _ => Ok (mkFound None None))
    (fun _ _ _ => Ok true)
    (fun _ _ _ _ => Ok (origin_json "no-store")).

Definition request (text : option string) (auth : option string) : Request :=
  mkRequest (mkBody text None)
    (match auth with
     | Some a => object [(Headers.authorization, a)]
     | None => ∅
     end)
    "POST".


Definition public_query : string := "{ posts { title } }".
Definition private_query : string := "{ viewer { email } }".
Definition a_mutation : string := "mutation { like(id: 1) }".

(** Two callers who ask the same private query, a caller without a
    credential who asks a public one, a caller who sends a mutation, a
    body without a query and a text that does not parse. *)
Definition alice : Request := request (Some private_query) (Some "Bearer alice").
Definition bob : Request := request (Some private_query) (Some "Bearer bob").
Definition anonymous : Request := request (Some public_query) None.
Definition liker : Request := request (Some a_mutation) (Some "Bearer alice").
Definition malformed : Request := request (Some "posts title") None.

(** An origin that answers plain text. *)
Definition origin_plain : Response :=
  mkResponse 200 (object [(Headers.contentType, "text/plain")]) (Text "hello").

Definition env_plain : Env platform :=
  mkEnv platform 1000 1000
    (Ok (Some ["viewer"]))
    (fun _ => Ok (mkFound None None))
    (fun _ _ _ => Ok true)
    (fun _ _ _ _ => Ok origin_plain).

(** A cache store that cannot write: [save] answers false. *)
Definition env_store_down (cc : string) : Env platform :=
  mkEnv platform 1000 1000
    (Ok (Some ["viewer"]))
    (fun _ => Ok (mkFound None None))
    (fun _ _ _ => Ok false)
    (fun _ _ _ _ => Ok (origin_json cc)).

(** A cache store whose lookup throws. *)
Definition env_lookup_throws : Env platform :=
  mkEnv platform 1000 1000
    (Ok (Some ["viewer"]))
    (fun _ => Throw "KV unavailable")
    (fun _ _ _ => Ok true)
    (fun _ _ _ _ => Ok (origin_json "max-age=60")).

(** No schema has been stored yet. *)
Definition env_schemaless (cc : string) : Env platform :=
  mkEnv platform 1000 1000
    (Ok None)
    (fun _ => Ok (mkFound None None))
    (fun _ _ _ => Ok true)
    (fun _ _ _ _ => Ok (origin_json cc)).

(** The entry that is written for the public query when the origin says
    [max-age=60] and the request arrived at time 1000. *)
Definition stored_public : CachedEntry :=
  mkEntry
    (headers
       (headers_set Headers.cacheControl (cache_control_text "public" 60)
          (new_Response "{}" None
             (spread ∅ (defaultResponseHeaders platform 1000)))))
    "{}".

(** A cache that answers the entry [cached] with the metadata [md]. *)
Definition env_replay (cached : CachedEntry) (md : option Metadata)
    : Env platform :=
  mkEnv platform 5000 5000
    (Ok (Some ["viewer"]))
    (fun _ => Ok (mkFound (Some cached) md))
    (fun _ _ _ => Ok true)
    (fun _ _ _ _ => Throw "origin is down").

End Demo.

(** * Properties *)

(** ** Strings *)

Lemma append_nil (a : string) : EmptyString +:+ a = a.
Proof. reflexivity. Qed.

Lemma append_cons (x : ascii) (a b : string) :
  String x a +:+ b = String x (a +:+ b).
Proof. reflexivity. Qed.

Ltac str_simpl := rewrite ?append_cons, ?append_nil in *.

Lemma length_append' (a b : string) :
  String.length (a +:+ b) = (String.length a + String.length b)%nat.
Proof.
  induction a as [|x a IH]; str_simpl; simpl; [reflexivity | now rewrite IH].
Qed.

Lemma append_inj_r (a b c : string) : a +:+ c = b +:+ c → a = b.
Proof.
  intros H.
  assert (Hlen : String.length a = String.length b).
  { apply (f_equal String.length) in H.
    rewrite !length_append' in H. lia. }
  revert b H Hlen. induction a as [|x a IH]; intros [|y b] H Hlen;
    str_simpl; simpl in Hlen; try discriminate; [reflexivity|].
  injection H as -> H. f_equal. apply IH; [assumption | lia].
Qed.

Lemma startsWith_spec (p s : string) :
  JS.startsWith p s = true ↔ ∃ r, s = p +:+ r.
Proof.
  revert s. induction p as [|a p IH]; intros s; simpl.
  - split; [intros _; now exists s | reflexivity].
  - destruct s as [|b s].
    + split; [discriminate | intros [r Hr]; discriminate].
    + destruct (Ascii.eqb_spec a b) as [->|Hne].
      * rewrite IH. split; intros [r Hr]; exists r; str_simpl; congruence.
      * split; [discriminate | intros [r Hr]; str_simpl; congruence].
Qed.

Lemma includes_unfold (hay needle : string) :
  JS.includes hay needle =
  if JS.startsWith needle hay then true
  else match hay with
       | EmptyString => false
       | String _ hay' => JS.includes hay' needle
       end.
Proof. destruct hay; reflexivity. Qed.

Lemma startsWith_append (needle post : string) :
  JS.startsWith needle (needle +:+ post) = true.
Proof. apply startsWith_spec. now exists post. Qed.

Lemma includes_spec (hay needle : string) :
  JS.includes hay needle = true ↔ Spec.contains hay needle.
Proof.
  unfold Spec.contains. induction hay as [|c hay IH]; rewrite includes_unfold.
  - destruct (JS.startsWith needle EmptyString) eqn:E.
    + apply startsWith_spec in E as [r Hr].
      split; [intros _; now exists EmptyString, r | reflexivity].
    + split; [discriminate|]. intros (pre & post & H).
      destruct pre; str_simpl; [|discriminate].
      rewrite H, startsWith_append in E. discriminate.
  - destruct (JS.startsWith needle (String c hay)) eqn:E.
    + apply startsWith_spec in E as [r Hr].
      split; [intros _; now exists EmptyString, r | reflexivity].
    + rewrite IH. split.
      * intros (pre & post & ->). now exists (String c pre), post.
      * intros (pre & post & H). destruct pre as [|x pre]; str_simpl.
        -- rewrite H, startsWith_append in E. discriminate.
        -- injection H as _ ->. eauto.
Qed.

Lemma indexOf_from_unfold (needle hay : string) (i : Z) :
  JS.indexOf_from needle hay i =
  if JS.startsWith needle hay then i
  else match hay with
       | EmptyString => -1
       | String _ hay' => JS.indexOf_from needle hay' (i + 1)
       end.
Proof. destruct hay; reflexivity. Qed.

Lemma indexOf_from_includes (needle hay : string) (i : Z) :
  0 <= i →
  if JS.includes hay needle
  then i <= JS.indexOf_from needle hay i
  else JS.indexOf_from needle hay i = -1.
Proof.
  revert i. induction hay as [|c hay IH]; intros i Hi;
    rewrite includes_unfold, indexOf_from_unfold;
    destruct (JS.startsWith needle _); try lia.
  specialize (IH (i + 1) ltac:(lia)).
  destruct (JS.includes hay needle); lia.
Qed.

Lemma truthy_lnot_spec (n : Z) : JS.truthy_lnot n = true ↔ n ≠ -1.
Proof.
  unfold JS.truthy_lnot, Z.lnot.
  destruct (Z.eqb_spec (Z.pred (- n)) 0); simpl; split; intros; try lia;
    discriminate.
Qed.

(** [!!~hay.indexOf(needle)] says whether [needle] occurs in [hay]. *)
Lemma indexOf_test_spec (hay needle : string) :
  JS.truthy_lnot (JS.indexOf hay needle) = true ↔ Spec.contains hay needle.
Proof.
  rewrite truthy_lnot_spec, <- includes_spec. unfold JS.indexOf.
  pose proof (indexOf_from_includes needle hay 0 ltac:(lia)) as H.
  destruct (JS.includes hay needle); split; intros; try lia; try congruence.
Qed.

(** ** Case-insensitive matching *)

Lemma lower_canonicalize (c : ascii) :
  Spec.lower (JS.canonicalize c) = Spec.lower c.
Proof. destruct c as [[] [] [] [] [] [] [] []]; reflexivity. Qed.

Lemma canonicalize_lower (c : ascii) :
  JS.canonicalize (Spec.lower c) = JS.canonicalize c.
Proof. destruct c as [[] [] [] [] [] [] [] []]; reflexivity. Qed.

Lemma canonicalize_eq_iff (a b : ascii) :
  JS.canonicalize a = JS.canonicalize b ↔ Spec.lower a = Spec.lower b.
Proof.
  split; intros H.
  - rewrite <- (lower_canonicalize a), H. apply lower_canonicalize.
  - rewrite <- (canonicalize_lower a), H. apply canonicalize_lower.
Qed.

Lemma startsWith_i_spec (p s : string) :
  JS.startsWith_i p s = true ↔
  ∃ w r, s = w +:+ r ∧ Spec.toLowerCase w = Spec.toLowerCase p.
Proof.
  revert s. induction p as [|a p IH]; intros s; simpl.
  - split; [intros _; now exists EmptyString, s | reflexivity].
  - destruct s as [|b s].
    + split; [discriminate|]. intros (w & r & Hs & Hw).
      destruct w; [discriminate Hw | discriminate Hs].
    + destruct (Ascii.eqb_spec (JS.canonicalize a) (JS.canonicalize b)) as [E|E].
      * apply canonicalize_eq_iff in E. rewrite IH. split.
        -- intros (w & r & -> & Hw). exists (String b w), r.
           split; [reflexivity|]. simpl. congruence.
        -- intros (w & r & Hs & Hw). destruct w as [|x w]; [discriminate Hw|].
           str_simpl. injection Hs as -> ->. injection Hw as _ Hw. eauto.
      * split; [discriminate|]. intros (w & r & Hs & Hw).
        destruct w as [|x w]; [discriminate Hw|].
        str_simpl. injection Hs as -> ->. injection Hw as Hx _.
        exfalso. apply E. apply canonicalize_eq_iff. congruence.
Qed.

Lemma test_alternatives_i_unfold (alts : list string) (s : string) :
  JS.test_alternatives_i alts s =
  if existsb (fun p => JS.startsWith_i p s) alts then true
  else match s with
       | EmptyString => false
       | String _ s' => JS.test_alternatives_i alts s'
       end.
Proof. destruct s; reflexivity. Qed.

Lemma test_alternatives_i_spec (alts : list string) (s : string) :
  JS.test_alternatives_i alts s = true ↔
  ∃ p, In p alts ∧ Spec.contains_i s p.
Proof.
  unfold Spec.contains_i.
  induction s as [|c s IH]; rewrite test_alternatives_i_unfold;
    destruct (existsb _ alts) eqn:E.
  - apply existsb_exists in E as (p & Hp & Hs).
    apply startsWith_i_spec in Hs as (w & r & Hs & Hw).
    split; [intros _ | reflexivity]. exists p. split; [assumption|].
    now exists EmptyString, w, r.
  - split; [discriminate|]. intros (p & Hp & pre & w & post & Hs & Hw).
    destruct pre; str_simpl; [|discriminate].
    assert (existsb (fun p => JS.startsWith_i p EmptyString) alts = true).
    { apply existsb_exists. exists p. split; [assumption|].
      apply startsWith_i_spec. eauto. }
    congruence.
  - apply existsb_exists in E as (p & Hp & Hs).
    apply startsWith_i_spec in Hs as (w & r & Hs & Hw).
    split; [intros _ | reflexivity]. exists p. split; [assumption|].
    now exists EmptyString, w, r.
  - rewrite IH. split.
    + intros (p & Hp & pre & w & post & -> & Hw).
      exists p. split; [assumption|]. now exists (String c pre), w, post.
    + intros (p & Hp & pre & w & post & Hs & Hw).
      destruct pre as [|x pre]; str_simpl.
      * assert (existsb (fun p => JS.startsWith_i p (String c s)) alts = true).
        { apply existsb_exists. exists p. split; [assumption|].
          apply startsWith_i_spec. eauto. }
        congruence.
      * injection Hs as _ ->. exists p. split; [assumption|]. eauto.
Qed.

(** ** [isResponseCachable] *)

(** C8.  [isResponseCachable] is a function of the status and the headers
    of the response alone.  It answers false when the status is 206, false
    when the Vary header contains a star, false when the Cache-Control
    header contains no-cache or no-store in any case of letters, and true
    in every other case; a missing header counts as the empty text. *)
Theorem isResponseCachable_spec (res : Response) :
  (status res = 206 → isResponseCachable res = false) ∧
  (Spec.contains (JS.or_empty (headers res !! "vary")) "*" →
   isResponseCachable res = false) ∧
  (Spec.contains_i (JS.or_empty (headers res !! "cache-control")) "no-cache" ∨
   Spec.contains_i (JS.or_empty (headers res !! "cache-control")) "no-store" →
   isResponseCachable res = false) ∧
  (status res ≠ 206 →
   ¬ Spec.contains (JS.or_empty (headers res !! "vary")) "*" →
   ¬ Spec.contains_i (JS.or_empty (headers res !! "cache-control")) "no-cache" →
   ¬ Spec.contains_i (JS.or_empty (headers res !! "cache-control")) "no-store" →
   isResponseCachable res = true).
Proof.
  unfold isResponseCachable, Headers.cacheControl.
  set (vary := JS.or_empty (headers res !! "vary")).
  set (cc := JS.or_empty (headers res !! "cache-control")).
  pose proof (indexOf_test_spec vary "*") as Hv.
  pose proof (test_alternatives_i_spec ["no-cache"; "no-store"] cc) as Hc.
  destruct (Z.eqb_spec (status res) 206) as [Hs|Hs].
  { repeat split; intros; try reflexivity; contradiction. }
  destruct (JS.truthy_lnot (JS.indexOf vary "*")).
  { repeat split; intros; try reflexivity.
    exfalso. match goal with H : ¬ Spec.contains _ _ |- _ => apply H end.
    now apply Hv. }
  destruct (JS.test_alternatives_i ["no-cache"; "no-store"] cc).
  { repeat split; intros; try reflexivity.
    destruct (proj1 Hc eq_refl) as (p & [<-|[<-|[]]] & Hp); contradiction. }
  repeat split; intros; try reflexivity.
  - contradiction.
  - apply Hv in H. discriminate.
  - assert (false = true); [|discriminate].
    apply Hc. destruct H as [H|H]; eexists; (split; [|exact H]); simpl; auto.
Qed.

(** A response whose Cache-Control says [No-Store] in mixed case is not
    cacheable. *)
Lemma isResponseCachable_spec_witness :
  isResponseCachable (Demo.origin_json "public, No-Store") = false.
Proof.
  apply (isResponseCachable_spec (Demo.origin_json "public, No-Store")).
  right. exists "public, ", "No-Store", EmptyString.
  split; vm_compute; reflexivity.
Defined.

(** ** [parseMaxAge] *)

Lemma stripPrefix_spec (p s r : string) :
  JS.stripPrefix p s = Some r ↔ s = p +:+ r.
Proof.
  revert s. induction p as [|a p IH]; intros s; simpl; str_simpl.
  - split; congruence.
  - destruct s as [|b s]; [split; discriminate|].
    destruct (Ascii.eqb_spec a b) as [->|Hne].
    + rewrite IH. split; congruence.
    + split; [discriminate | congruence].
Qed.




Lemma match_literal_digits_unfold (lit s : string) :
  JS.match_literal_digits lit s =
  match JS.match_digits_at lit s with
  | Some ds => Some ds
  | None =>
      match s with
      | EmptyString => None
      | String _ s' => JS.match_literal_digits lit s'
      end
  end.
Proof. destruct s; reflexivity. Qed.







(** Up to 2^53 an integer is its own double. *)
Lemma to_double_small (n : Z) : 0 <= n <= 2 ^ 53 → JS.to_double n = JS.Int n.
Proof.
  intros [H0 H1]. unfold JS.to_double.
  destruct (Z.ltb_spec n (2 ^ 53)) as [Hlt|Hge]; [reflexivity|].
  assert (n = 2 ^ 53) as -> by lia. vm_compute. reflexivity.
Qed.







Example toString_examples :
  JS.toString 0 = "0" ∧ JS.toString 900 = "900" ∧ JS.toString (-1) = "-1".
Proof. vm_compute. auto. Qed.

Example Math_round_ties_upwards :
  JS.Math_round (25 # 2) = 13 ∧ JS.Math_round (- 3 # 2) = -1.
Proof. vm_compute. auto. Qed.

Example parseMaxAge_leftmost :
  parseMaxAge "public, max-age=x, max-age=0120, max-age=7" = 120.
Proof. reflexivity. Qed.

Example parseMaxAge_absent : parseMaxAge "no-store" = -1.
Proof. reflexivity. Qed.

Example parseMaxAge_is_case_sensitive : parseMaxAge "Max-Age=12" = -1.
Proof. reflexivity. Qed.

Example isResponseCachable_partial :
  isResponseCachable (mkResponse 206 ∅ (Text "{}")) = false.
Proof. reflexivity. Qed.

Example isResponseCachable_vary_star :
  isResponseCachable
    (mkResponse 200 (object [("vary", "accept, *")]) (Text "{}")) = false.
Proof. vm_compute. reflexivity. Qed.

Example isResponseCachable_plain :
  isResponseCachable (Demo.origin_json "public, max-age=60") = true.
Proof. vm_compute. reflexivity. Qed.

(** ** Headers of the answers *)

Ltac keys_differ :=
  let H := fresh in intros H; vm_compute in H; discriminate H.

Section HandlerFacts.

Context (P : Platform) (cfg : Config).

Lemma caught_gcdnCache (defaults : gmap string string) :
  caught_headers defaults !! Headers.gcdnCache = Some CacheHitHeader.ERROR.
Proof.
  unfold caught_headers, spread, object. simpl.
  apply lookup_union_Some_l.
  rewrite lookup_insert_ne by keys_differ. apply lookup_insert_eq.
Qed.

Lemma caught_xCache (defaults : gmap string string) :
  caught_headers defaults !! Headers.xCache = Some CacheHitHeader.HIT.
Proof.
  unfold caught_headers, spread, object. simpl.
  apply lookup_union_Some_l. apply lookup_insert_eq.
Qed.

(** ** The classification *)

Lemma classify_trace (env : Env P) (doc : DocumentNode P) (text : string) :
  (classify P cfg env doc text).2 = [EvLatest].
Proof.
  unfold classify, bind, call, lift, ret.
  repeat (case_match; simplify_eq/=; try reflexivity).
Qed.

Lemma identity_token_eq (req : Request) :
  JS.or_empty (req_headers req !! Headers.authorization)
  = Spec.identity_token req.
Proof.
  unfold Spec.identity_token, JS.or_empty, Headers.authorization.
  now destruct (req_headers req !! "authorization").
Qed.

(** What [graphql] does once the classification has ended. *)
Lemma graphql_classified (env : Env P) (req : Request) (hp im : bool)
    (c : string) :
  Spec.classified P cfg env req hp im c →
  graphql P cfg env req =
  let defaults := defaultResponseHeaders P (now_start env) in
  let '(r, t) :=
    (let* sig := derive_signature P (Spec.identity_token req) c
                   (negb im && hp) im in
     let* hit := lookup P env defaults im sig in
     match hit with
     | Some res => ret res
     | None => refresh P cfg env req defaults im (negb im && hp) sig
     end) in
  (r, EvLatest :: t).
Proof.
  intros (Ht & doc & Hp & Hc). unfold graphql, Spec.query_text in *.
  rewrite Ht. simpl negb. cbv iota. rewrite Hp.
  pose proof (classify_trace env doc (JS.or_empty (query (req_body req)))) as Htr.
  unfold attempt, lift, bind at 1 2.
  destruct (classify P cfg env doc _) as [r t]. simpl in Hc, Htr. subst r t.
  rewrite identity_token_eq. cbv zeta.
  destruct (bind _ _) as [r t]. reflexivity.
Qed.

(** What [graphql] does when the classification throws. *)
Lemma graphql_caught (env : Env P) (req : Request) (e : string) :
  Spec.classification_throws P cfg env req e →
  graphql P cfg env req =
  (Ok (send 400 (Caught e)
         (caught_headers (defaultResponseHeaders P (now_start env)))),
   [EvLatest]).
Proof.
  intros (Ht & doc & Hp & Hc). unfold graphql, Spec.query_text in *.
  rewrite Ht. simpl negb. cbv iota. rewrite Hp.
  pose proof (classify_trace env doc (JS.or_empty (query (req_body req)))) as Htr.
  unfold attempt, lift, bind at 1 2.
  destruct (classify P cfg env doc _) as [r t]. simpl in Hc, Htr. subst r t.
  reflexivity.
Qed.

(** What [graphql] does when the body has no query text. *)
Lemma graphql_no_query (env : Env P) (req : Request) :
  JS.truthy (query (req_body req)) = false →
  graphql P cfg env req = (Ok (send 400 (ErrorObject no_query_text) ∅), []).
Proof. intros Ht. unfold graphql. now rewrite Ht. Qed.

(** An exception of the parser at line 43 is not caught. *)
Lemma graphql_parse_error (env : Env P) (req : Request) (e : string) :
  JS.truthy (query (req_body req)) = true →
  parse P (Spec.query_text req) = Throw e →
  graphql P cfg env req = (Throw e, []).
Proof.
  intros Ht Hp. unfold graphql, Spec.query_text in *.
  rewrite Ht. simpl negb. cbv iota. now rewrite Hp.
Qed.

(** ** Mutations *)

Lemma graphql_mutation (env : Env P) (req : Request) (hp : bool) (c : string) :
  Spec.classified P cfg env req hp true c →
  Spec.store_keys (graphql P cfg env req).2 = [] ∧
  Forall (fun ev => Spec.is_hash ev = false) (graphql P cfg env req).2 ∧
  (∀ res, (graphql P cfg env req).1 = Ok res →
          headers res !! Headers.gcdnCache = Some CacheHitHeader.PASS) ∧
  (∀ e, (graphql P cfg env req).1 = Throw e → Spec.origin_fails P cfg env req e).
Proof.
  intros Hc. rewrite (graphql_classified _ _ _ _ _ Hc).
  unfold derive_signature, lookup, refresh, Spec.origin_fails.
  simpl negb. simpl andb. cbv iota. unfold bind, call, lift, ret. cbv zeta.
  destruct (fetch env _ _ _ _) as [response|e0]; simpl.
  2:{ repeat split; try reflexivity; try (repeat constructor; fail).
      - intros res [=]. - intros e [= ->]. now left. }
  destruct (match headers response !! Headers.contentType with
            | Some ct => JS.includes ct "application/json"
            | None => false
            end); simpl.
  - destruct (json_text P response) as [text|e0] eqn:Hj; simpl.
    + repeat split; try reflexivity; try (repeat constructor; fail).
      * intros res [= <-]. simpl. apply lookup_insert_eq.
      * intros e [=].
    + repeat split; try reflexivity; try (repeat constructor; fail).
      * intros res [=].
      * intros e [= ->]. right. eauto.
  - repeat split; try reflexivity; try (repeat constructor; fail).
    + intros res [= <-]. simpl. apply lookup_insert_eq.
    + intros e [=].
Qed.

(** C4.  However often a request is repeated, every time it is
    classified as a mutation the handler makes no call to the cache
    store, neither a lookup nor a write; the response it returns carries
    the gcdn-cache header PASS; and it returns a response unless the call
    to the origin, or the decoding of the origin's body, throws. *)
Theorem mutation_never_cached (envs : list (Env P)) (req : Request) :
  Forall2
    (fun env out =>
       ∀ hp c, Spec.classified P cfg env req hp true c →
         Spec.store_keys out.2 = [] ∧
         (∀ res, out.1 = Ok res →
                 headers res !! Headers.gcdnCache = Some CacheHitHeader.PASS) ∧
         (∀ e, out.1 = Throw e → Spec.origin_fails P cfg env req e))
    envs (graphql_repeated P cfg envs req).
Proof.
  unfold graphql_repeated. induction envs as [|env envs IH]; simpl;
    constructor; [|exact IH].
  intros hp c Hc. destruct (graphql_mutation env req hp c Hc) as (? & _ & ? & ?).
  auto.
Qed.

(** ** Queries *)

(** The calls of a request that is not a mutation: the schema, the
    digest, the lookup, and then what [rest] says; every call to the
    store in [rest] has the key of the lookup, and [rest] has no other
    digest. *)
Lemma graphql_query_trace (env : Env P) (req : Request) (hp : bool) (c : string) :
  Spec.classified P cfg env req hp false c →
  ∃ rest,
    (graphql P cfg env req).2
    = EvLatest :: EvHash (Spec.hashed_text req hp c)
        :: EvFind (Spec.derived_key P req hp c) :: rest ∧
    Forall (eq (Spec.derived_key P req hp c)) (Spec.store_keys rest) ∧
    Forall (fun ev => Spec.is_hash ev = false) rest.
Proof.
  intros Hc. rewrite (graphql_classified _ _ _ _ _ Hc).
  unfold derive_signature, lookup, refresh, Spec.hashed_text, Spec.derived_key.
  simpl negb. simpl andb. cbv iota.
  destruct hp; unfold bind, call, lift, ret; cbv zeta;
    repeat (case_match; simplify_eq/=);
    eexists; (split; [reflexivity|]); split; repeat constructor.
Qed.

Lemma graphql_store_keys (env : Env P) (req : Request) (hp im : bool)
    (c : string) :
  Spec.classified P cfg env req hp im c →
  Forall (eq (Spec.derived_key P req hp c))
         (Spec.store_keys (graphql P cfg env req).2).
Proof.
  intros Hc. destruct im.
  - destruct (graphql_mutation env req hp c Hc) as (-> & _). constructor.
  - destruct (graphql_query_trace env req hp c Hc) as (rest & -> & Hk & _).
    simpl. now constructor.
Qed.

(** A hit: the answer is built from the entry and the origin is not
    called. *)
Lemma graphql_hit (env : Env P) (req : Request) (hp : bool) (c : string)
    (found : Found) (cached : CachedEntry) :
  Spec.classified P cfg env req hp false c →
  find env (Spec.derived_key P req hp c) = Ok found →
  value found = Some cached →
  graphql P cfg env req =
  (Ok (serve_hit P env (defaultResponseHeaders P (now_start env)) found cached),
   [EvLatest; EvHash (Spec.hashed_text req hp c);
    EvFind (Spec.derived_key P req hp c)]).
Proof.
  intros Hc Hf Hv. rewrite (graphql_classified _ _ _ _ _ Hc).
  unfold derive_signature, lookup, Spec.hashed_text, Spec.derived_key in *.
  simpl negb. simpl andb. cbv iota.
  destruct hp; unfold bind, call, lift, ret; cbv zeta; rewrite Hf, Hv;
    reflexivity.
Qed.

(** A miss answered by the origin with JSON: the answer is stored and
    served when the decision says so, and passed through otherwise. *)
Lemma graphql_miss (env : Env P) (req : Request) (hp : bool) (c : string)
    (response : Response) (text : string) :
  Spec.classified P cfg env req hp false c →
  Spec.misses P env (Spec.derived_key P req hp c) →
  Spec.origin_answers_json P cfg env req response text →
  graphql P cfg env req =
  let defaults := defaultResponseHeaders P (now_start env) in
  let key := Spec.derived_key P req hp c in
  let before :=
    [EvLatest; EvHash (Spec.hashed_text req hp c); EvFind key;
     EvFetch (origin cfg) (req_body req)] in
  let built := new_Response text (spread_status P response)
                 (spread (spread_headers P response) defaults) in
  if isResponseCachable response || hp then
    let maxAge := choose_maxAge cfg (headers response !! Headers.cacheControl) in
    let res :=
      headers_set Headers.cacheControl
        (cache_control_text (if hp then "private" else "public") maxAge) built in
    let stored := mkEntry (headers res) text in
    match save env key stored maxAge with
    | Ok true =>
        (Ok (headers_set Headers.gcdnCache CacheHitHeader.PASS res),
         (before ++ [EvSave key stored maxAge])%list)
    | Ok false =>
        (Ok (headers_set Headers.gcdnCache CacheHitHeader.PASS res),
         (before ++ [EvSave key stored maxAge;
                     EvLog "query could not be stored in cache"])%list)
    | Throw e => (Throw e, (before ++ [EvSave key stored maxAge])%list)
    end
  else
    (Ok (new_Response text (spread_status P response)
           (<[Headers.gcdnCache := CacheHitHeader.PASS]>
              (spread (spread_headers P response) defaults))),
     before).
Proof.
  intros Hc (found & Hf & Hv) (Hfetch & (ct & Hct & Hjson) & Htext).
  apply includes_spec in Hjson.
  rewrite (graphql_classified _ _ _ _ _ Hc).
  unfold derive_signature, lookup, refresh, Spec.hashed_text,
    Spec.derived_key in *.
  simpl negb. simpl andb. cbv iota.
  destruct hp; unfold bind, call, lift, ret; cbv zeta;
    rewrite Hf, Hv, Hfetch; unfold Headers.contentType;
    rewrite Hct, Hjson, Htext; simpl.
  - rewrite orb_true_r. destruct (save env _ _ _) as [[]|]; reflexivity.
  - rewrite orb_false_r.
    destruct (isResponseCachable response); simpl;
      [destruct (save env _ _ _) as [[]|]|]; reflexivity.
Qed.

(** ** Age of a hit *)

(** [Math.round(n / 1000)] on integers. *)
Lemma Math_round_thousandth (n : Z) :
  JS.Math_round (inject_Z n / inject_Z 1000)%Q = (n + 500) / 1000.
Proof.
  unfold JS.Math_round.
  replace ((n + 500) / 1000) with ((2 * n + 1000) / 2000).
  - rewrite Zdiv_Qdiv. apply Qfloor_comp.
    rewrite inject_Z_plus, inject_Z_mult. field.
  - pose proof (Z.div_mod (2 * n + 1000) 2000 ltac:(lia)).
    pose proof (Z.mod_pos_bound (2 * n + 1000) 2000 ltac:(lia)).
    pose proof (Z.div_mod (n + 500) 1000 ltac:(lia)).
    pose proof (Z.mod_pos_bound (n + 500) 1000 ltac:(lia)).
    lia.
Qed.

Lemma age_seconds_rounds (now : Z) (md : Metadata) :
  Spec.is_rounding (now - createdAt md) 1000 (age_seconds now md).
Proof.
  unfold Spec.is_rounding, age_seconds. rewrite Math_round_thousandth.
  pose proof (Z.div_mod (now - createdAt md + 500) 1000 ltac:(lia)).
  pose proof (Z.mod_pos_bound (now - createdAt md + 500) 1000 ltac:(lia)).
  lia.
Qed.

Lemma is_rounding_unique (n d r1 r2 : Z) :
  0 < d → Spec.is_rounding n d r1 → Spec.is_rounding n d r2 → r1 = r2.
Proof. unfold Spec.is_rounding. intros Hd H1 H2. nia. Qed.

Lemma age_value_min (now : Z) (md : Metadata) :
  age_value now md = Z.min (age_seconds now md) (expirationTtl md).
Proof.
  unfold age_value. cbv zeta.
  destruct (Z.gtb_spec (age_seconds now md) (expirationTtl md)); lia.
Qed.

Lemma serve_hit_age (env : Env P) (defaults : gmap string string)
    (found : Found) (cached : CachedEntry) (md : Metadata) :
  metadata found = Some md →
  headers (serve_hit P env defaults found cached) !! Headers.age
  = Some (JS.toString (age_value (now_hit env) md)).
Proof.
  intros Hm. unfold serve_hit. rewrite Hm. simpl.
  rewrite !lookup_insert_ne by keys_differ. apply lookup_insert_eq.
Qed.

(** C6.  A hit whose entry has metadata is answered with an Age header
    that prints the smaller of two numbers: the age, which is the time
    since [createdAt] in milliseconds divided by 1000 and rounded to the
    nearest integer, and the entry's [expirationTtl].  So the number in
    the Age header is never above [expirationTtl], whatever time has
    passed. *)
Theorem hit_age_header (env : Env P) (req : Request) (hp : bool) (c : string)
    (found : Found) (cached : CachedEntry) (md : Metadata) :
  Spec.classified P cfg env req hp false c →
  find env (Spec.derived_key P req hp c) = Ok found →
  value found = Some cached →
  metadata found = Some md →
  ∃ res age,
    (graphql P cfg env req).1 = Ok res ∧
    Spec.is_rounding (now_hit env - createdAt md) 1000 age ∧
    headers res !! "age" = Some (JS.toString (Z.min age (expirationTtl md))) ∧
    (∀ n : Z, headers res !! "age" = Some (JS.toString n) →
              n <= expirationTtl md).
Proof.
  intros Hc Hf Hv Hm. rewrite (graphql_hit _ _ _ _ _ _ Hc Hf Hv).
  eexists. exists (age_seconds (now_hit env) md).
  split; [reflexivity|]. split; [apply age_seconds_rounds|].
  pose proof (serve_hit_age env (defaultResponseHeaders P (now_start env))
                found cached md Hm) as Hage.
  unfold Headers.age in Hage. rewrite age_value_min in Hage.
  split; [exact Hage|].
  intros n Hn. rewrite Hage in Hn. injection Hn as Hn.
  apply (inj pretty) in Hn. lia.
Qed.

(** ** The decision to store *)

Lemma no_store_keys_no_save (t : list Event) :
  Spec.store_keys t = [] → existsb Spec.is_save t = false.
Proof.
  induction t as [|ev t IH]; [reflexivity|].
  destruct ev; simpl; try discriminate; exact IH.
Qed.

(** The guard on the header at line 139 changes nothing: without a
    header, or with an empty one, [parseMaxAge] finds no max-age. *)
Lemma choose_maxAge_spec (response : Response) :
  choose_maxAge cfg (headers response !! Headers.cacheControl)
  = Spec.chosen_maxAge cfg response.
Proof.
  unfold choose_maxAge, Spec.chosen_maxAge, Headers.cacheControl.
  destruct (headers response !! "cache-control") as [[|a v]|];
    reflexivity.
Qed.

Lemma no_store_keys_no_saves (t : list Event) :
  Spec.store_keys t = [] → List.filter Spec.is_save t = [].
Proof.
  induction t as [|ev t IH]; [reflexivity|].
  destruct ev; simpl; try discriminate; exact IH.
Qed.

(** C1.  A mutation is never stored.  For a request that is not a
    mutation, that misses the cache and that the origin answers with
    JSON, the answer is stored exactly when [isResponseCachable] accepts
    the origin's response or the operation touches a private type, and
    what is stored is that answer: the one write to the store has the key
    of the request, an entry with the decoded body of the origin and the
    headers of the response, and the chosen time to live, and the
    response that is returned has the stored body and the stored headers
    with gcdn-cache set to PASS.  So the answer is stored whenever the
    operation touches a private type, whatever the origin's Cache-Control
    says. *)
Theorem stored_iff_cacheable (env : Env P) (req : Request) (hp im : bool)
    (c : string) :
  Spec.classified P cfg env req hp im c →
  (im = true → List.filter Spec.is_save (graphql P cfg env req).2 = []) ∧
  (im = false → ∀ response text,
     Spec.misses P env (Spec.derived_key P req hp c) →
     Spec.origin_answers_json P cfg env req response text →
     existsb Spec.is_save (graphql P cfg env req).2
     = isResponseCachable response || hp ∧
     List.filter Spec.is_save (graphql P cfg env req).2
     = (if isResponseCachable response || hp
        then [EvSave (Spec.derived_key P req hp c)
                (Spec.stored_answer P cfg env hp response text)
                (Spec.chosen_maxAge cfg response)]
        else []) ∧
     (isResponseCachable response || hp = true →
      ∀ res, (graphql P cfg env req).1 = Ok res →
        body res
        = Text (entry_body (Spec.stored_answer P cfg env hp response text)) ∧
        headers res
        = <["gcdn-cache" := "PASS"]>
            (entry_headers (Spec.stored_answer P cfg env hp response text)))) ∧
  (im = false → hp = true → ∀ response text,
     Spec.misses P env (Spec.derived_key P req hp c) →
     Spec.origin_answers_json P cfg env req response text →
     List.filter Spec.is_save (graphql P cfg env req).2
     = [EvSave (Spec.derived_key P req hp c)
          (Spec.stored_answer P cfg env hp response text)
          (Spec.chosen_maxAge cfg response)]).
Proof.
  intros Hc.
  assert (Hmiss : im = false → ∀ response text,
            Spec.misses P env (Spec.derived_key P req hp c) →
            Spec.origin_answers_json P cfg env req response text →
            List.filter Spec.is_save (graphql P cfg env req).2
            = (if isResponseCachable response || hp
               then [EvSave (Spec.derived_key P req hp c)
                       (Spec.stored_answer P cfg env hp response text)
                       (Spec.chosen_maxAge cfg response)]
               else [])).
  { intros -> response text Hm Ho.
    rewrite (graphql_miss _ _ _ _ _ _ Hc Hm Ho). cbv zeta.
    rewrite choose_maxAge_spec.
    destruct (isResponseCachable response || hp); [|reflexivity].
    destruct (save env _ _ _) as [[]|]; reflexivity. }
  split; [|split].
  - intros ->. apply no_store_keys_no_saves.
    now destruct (graphql_mutation env req hp c Hc) as (? & _).
  - intros Him response text Hm Ho. split; [|split].
    + subst im. rewrite (graphql_miss _ _ _ _ _ _ Hc Hm Ho). cbv zeta.
      destruct (isResponseCachable response || hp); [|reflexivity].
      destruct (save env _ _ _) as [[]|]; reflexivity.
    + exact (Hmiss Him response text Hm Ho).
    + subst im. intros Hdec res.
      rewrite (graphql_miss _ _ _ _ _ _ Hc Hm Ho). cbv zeta.
      rewrite Hdec, choose_maxAge_spec.
      destruct (save env _ _ _) as [[]|]; intros [= <-]; split; reflexivity.
  - intros Him -> response text Hm Ho.
    rewrite (Hmiss Him response text Hm Ho), orb_true_r. reflexivity.
Qed.

(** ** The key *)

(** C2.  For a request that is not a mutation the handler hashes one
    text and looks the digest up: the identity token followed by the
    normalized query when the operation touches a private type, the
    normalized query alone otherwise; every later call to the store has
    the same key.  Without an authorization credential the token is empty
    and the key is still derived, the digest of the normalized query.  For
    a mutation nothing is hashed and the store is not called. *)
Theorem cache_key_derivation (env : Env P) (req : Request) (hp im : bool)
    (c : string) :
  Spec.classified P cfg env req hp im c →
  (im = false → hp = true →
   ∃ rest,
     (graphql P cfg env req).2
     = EvLatest :: EvHash (Spec.identity_token req +:+ c)
         :: EvFind (SHA256 P (Spec.identity_token req +:+ c)) :: rest ∧
     Forall (eq (SHA256 P (Spec.identity_token req +:+ c))) (Spec.store_keys rest) ∧
     Forall (fun ev => Spec.is_hash ev = false) rest) ∧
  (im = false → hp = false →
   ∃ rest,
     (graphql P cfg env req).2
     = EvLatest :: EvHash c :: EvFind (SHA256 P c) :: rest ∧
     Forall (eq (SHA256 P c)) (Spec.store_keys rest) ∧
     Forall (fun ev => Spec.is_hash ev = false) rest) ∧
  (im = false → req_headers req !! "authorization" = None →
   Spec.identity_token req = EmptyString ∧
   ∃ rest,
     (graphql P cfg env req).2
     = EvLatest :: EvHash c :: EvFind (SHA256 P c) :: rest) ∧
  (im = true →
   Forall (fun ev => Spec.is_hash ev = false) (graphql P cfg env req).2 ∧
   Spec.store_keys (graphql P cfg env req).2 = []).
Proof.
  intros Hc. split; [|split; [|split]].
  - intros -> ->. exact (graphql_query_trace env req true c Hc).
  - intros -> ->. exact (graphql_query_trace env req false c Hc).
  - intros -> Hnone.
    assert (Htok : Spec.identity_token req = EmptyString)
      by (unfold Spec.identity_token; now rewrite Hnone).
    split; [exact Htok|].
    destruct (graphql_query_trace env req hp c Hc) as (rest & Ht & _).
    exists rest. rewrite Ht. unfold Spec.hashed_text, Spec.derived_key.
    rewrite Htok. now destruct hp.
  - intros ->. destruct (graphql_mutation env req hp c Hc) as (? & ? & _).
    now split.
Qed.

(** C3.  Two requests with the same normalized query that touches a
    private type, sent with different identity tokens, have different
    signatures as soon as the digest tells the two hashed texts apart;
    every call of either request to the cache store, lookup or write, has
    the signature of that request, so no key of the one is a key of the
    other. *)
Theorem identities_do_not_share_keys (env1 env2 : Env P) (req1 req2 : Request)
    (im1 im2 : bool) (c : string) :
  Spec.classified P cfg env1 req1 true im1 c →
  Spec.classified P cfg env2 req2 true im2 c →
  Spec.identity_token req1 ≠ Spec.identity_token req2 →
  (SHA256 P (Spec.identity_token req1 +:+ c)
   = SHA256 P (Spec.identity_token req2 +:+ c) →
   Spec.identity_token req1 +:+ c = Spec.identity_token req2 +:+ c) →
  SHA256 P (Spec.identity_token req1 +:+ c)
  ≠ SHA256 P (Spec.identity_token req2 +:+ c) ∧
  (∀ k, k ∈ Spec.store_keys (graphql P cfg env1 req1).2 →
        k = SHA256 P (Spec.identity_token req1 +:+ c)) ∧
  (∀ k, k ∈ Spec.store_keys (graphql P cfg env2 req2).2 →
        k = SHA256 P (Spec.identity_token req2 +:+ c)) ∧
  (∀ k, k ∈ Spec.store_keys (graphql P cfg env1 req1).2 →
        k ∉ Spec.store_keys (graphql P cfg env2 req2).2).
Proof.
  intros Hc1 Hc2 Hne Hinj.
  assert (Hkeys : SHA256 P (Spec.identity_token req1 +:+ c)
                  ≠ SHA256 P (Spec.identity_token req2 +:+ c)).
  { intros Heq. apply Hne. apply (append_inj_r _ _ c). now apply Hinj. }
  pose proof (graphql_store_keys env1 req1 true im1 c Hc1) as H1.
  pose proof (graphql_store_keys env2 req2 true im2 c Hc2) as H2.
  rewrite Forall_forall in H1, H2. unfold Spec.derived_key in H1, H2.
  split; [|split; [|split]].
  - exact Hkeys.
  - intros k Hk. symmetry. now apply H1.
  - intros k Hk. symmetry. now apply H2.
  - intros k Hk1 Hk2. apply Hkeys.
    rewrite (H1 k Hk1). symmetry. now apply H2.
Qed.

(** ** The time to live of a stored answer *)

(** C7.  On a miss whose answer is stored, one number is used in three
    places.  The number is what [parseMaxAge] finds in the origin's
    Cache-Control when that is above -1, and the configured default
    otherwise.  It is the time to live handed to the one write to the
    store, and it is printed after [max-age=] and after
    [stale-while-revalidate=] in the Cache-Control of the stored headers
    and of the response.  A response is returned unless the write throws. *)
Theorem one_maxAge_everywhere (env : Env P) (req : Request) (hp : bool)
    (c : string) (response : Response) (text : string) :
  Spec.classified P cfg env req hp false c →
  Spec.misses P env (Spec.derived_key P req hp c) →
  Spec.origin_answers_json P cfg env req response text →
  isResponseCachable response || hp = true →
  let maxAge := Spec.chosen_maxAge cfg response in
  let directives :=
    (if hp then "private" else "public")
      +:+ ", max-age=" +:+ JS.toString maxAge
      +:+ ", stale-while-revalidate=" +:+ JS.toString maxAge in
  ∃ stored,
    List.filter Spec.is_save (graphql P cfg env req).2
    = [EvSave (Spec.derived_key P req hp c) stored maxAge] ∧
    entry_headers stored !! "cache-control" = Some directives ∧
    (∀ res, (graphql P cfg env req).1 = Ok res →
            headers res !! "cache-control" = Some directives) ∧
    (∀ e, (graphql P cfg env req).1 = Throw e →
          save env (Spec.derived_key P req hp c) stored maxAge = Throw e).
Proof.
  intros Hc Hm Ho Hdec maxAge directives.
  rewrite (graphql_miss _ _ _ _ _ _ Hc Hm Ho). cbv zeta.
  rewrite Hdec, choose_maxAge_spec. fold maxAge.
  change (cache_control_text (if hp then "private" else "public") maxAge)
    with directives.
  eexists. split; [|split; [|split]].
  - destruct (save env _ _ _) as [[]|]; reflexivity.
  - simpl. apply lookup_insert_eq.
  - intros res. destruct (save env _ _ _) as [[]|]; intros [= <-]; simpl;
      (rewrite lookup_insert_ne by keys_differ); apply lookup_insert_eq.
  - intros e. destruct (save env _ _ _) as [[]|]; intros [= <-]. reflexivity.
Qed.

(** ** Requests that are refused *)

(** The four calls of the classification, in order; the first that
    throws ends it. *)
Lemma classify_result (env : Env P) (doc : DocumentNode P) (text : string) :
  (classify P cfg env doc text).1 =
  match latest env with
  | Throw e => Throw e
  | Ok schema =>
      match
        match schema with
        | Some sch =>
            if 0 <? Z.of_nat (length (privateTypes cfg))
            then hasIntersectedTypes P sch doc (privateTypes cfg)
            else Ok false
        | None => Ok false
        end
      with
      | Throw e => Throw e
      | Ok hasPrivateTypes =>
          match normalizeDocument P text with
          | Throw e => Throw e
          | Ok content =>
              match isMutation P doc with
              | Throw e => Throw e
              | Ok isMutationRequest =>
                  Ok (hasPrivateTypes, isMutationRequest, content)
              end
          end
      end
  end.
Proof.
  unfold classify, bind, call, lift, ret.
  repeat (case_match; simplify_eq/=; try reflexivity).
Qed.


(** C10.  When a call of the classification throws, the handler answers
    with status 400 and sets the header x-cache to HIT and the header
    gcdn-cache to ERROR, although it made no call to the cache store. *)
Theorem caught_error_reports_hit (env : Env P) (req : Request) (e : string) :
  Spec.classification_throws P cfg env req e →
  ∃ res, (graphql P cfg env req).1 = Ok res ∧
         status res = 400 ∧
         headers res !! "x-cache" = Some "HIT" ∧
         headers res !! "gcdn-cache" = Some "ERROR" ∧
         Spec.store_keys (graphql P cfg env req).2 = [].
Proof.
  intros He. rewrite (graphql_caught _ _ _ He). eexists.
  split; [reflexivity|]. split; [reflexivity|].
  split; [apply caught_xCache|]. split; [apply caught_gcdnCache|reflexivity].
Qed.

End HandlerFacts.

(** ** The handler on the small platform *)

Ltac demo_classified :=
  split; [vm_compute; reflexivity | eexists; split; vm_compute; reflexivity].

Ltac demo_misses := eexists; split; reflexivity.

Ltac demo_origin_json :=
  split; [reflexivity|];
  split; [|reflexivity];
  exists "application/json; charset=utf-8";
  split; [vm_compute; reflexivity|];
  exists EmptyString, "; charset=utf-8"; reflexivity.

(** Alice's private query is stored although the origin says no-store,
    under her key and with the default time to live. *)
Lemma stored_iff_cacheable_witness :
  List.filter Spec.is_save
    (graphql Demo.platform Demo.config (Demo.env_miss "no-store") Demo.alice).2
  = [EvSave (Spec.derived_key Demo.platform Demo.alice true Demo.private_query)
       (Spec.stored_answer Demo.platform Demo.config (Demo.env_miss "no-store")
          true (Demo.origin_json "no-store") "{}")
       (Spec.chosen_maxAge Demo.config (Demo.origin_json "no-store"))].
Proof.
  refine (proj2 (proj2 (stored_iff_cacheable Demo.platform Demo.config
            (Demo.env_miss "no-store") Demo.alice true false
            Demo.private_query _))
          eq_refl eq_refl (Demo.origin_json "no-store") "{}" _ _).
  - demo_classified.
  - demo_misses.
  - demo_origin_json.
Defined.

(** Alice's key is the digest of her token followed by the query. *)
Lemma cache_key_derivation_witness :
  ∃ rest,
    (graphql Demo.platform Demo.config (Demo.env_miss "no-store") Demo.alice).2
    = EvLatest :: EvHash (Spec.identity_token Demo.alice +:+ Demo.private_query)
        :: EvFind (SHA256 Demo.platform
                     (Spec.identity_token Demo.alice +:+ Demo.private_query))
        :: rest ∧
    Forall (eq (SHA256 Demo.platform
                  (Spec.identity_token Demo.alice +:+ Demo.private_query)))
           (Spec.store_keys rest) ∧
    Forall (fun ev => Spec.is_hash ev = false) rest.
Proof.
  refine (proj1 (cache_key_derivation Demo.platform Demo.config
            (Demo.env_miss "no-store") Demo.alice true false
            Demo.private_query _) eq_refl eq_refl).
  demo_classified.
Defined.

(** Alice and Bob never meet in the store. *)
Lemma identities_do_not_share_keys_witness :
  SHA256 Demo.platform (Spec.identity_token Demo.alice +:+ Demo.private_query)
  ≠ SHA256 Demo.platform (Spec.identity_token Demo.bob +:+ Demo.private_query) ∧
  (∀ k, k ∈ Spec.store_keys
              (graphql Demo.platform Demo.config (Demo.env_miss "no-store")
                 Demo.alice).2 →
        k ∉ Spec.store_keys
              (graphql Demo.platform Demo.config (Demo.env_miss "max-age=60")
                 Demo.bob).2).
Proof.
  destruct (identities_do_not_share_keys Demo.platform Demo.config
              (Demo.env_miss "no-store") (Demo.env_miss "max-age=60")
              Demo.alice Demo.bob false false Demo.private_query)
    as (Hne & _ & _ & Hdisjoint).
  - demo_classified.
  - demo_classified.
  - vm_compute. discriminate.
  - vm_compute. discriminate.
  - split; [exact Hne | exact Hdisjoint].
Defined.

(** A mutation sent twice: no call to the store, and PASS, both times. *)
Lemma mutation_never_cached_witness :
  Spec.store_keys
    (graphql Demo.platform Demo.config (Demo.env_miss "max-age=60") Demo.liker).2
  = [] ∧
  ∃ res,
    (graphql Demo.platform Demo.config (Demo.env_miss "max-age=60") Demo.liker).1
    = Ok res ∧
    headers res !! Headers.gcdnCache = Some CacheHitHeader.PASS.
Proof.
  pose proof (mutation_never_cached Demo.platform Demo.config
                [Demo.env_miss "no-store"; Demo.env_miss "max-age=60"]
                Demo.liker) as H.
  apply Forall2_cons_1 in H as [_ H]. apply Forall2_cons_1 in H as [H _].
  destruct (H false Demo.a_mutation) as (Hkeys & Hpass & _).
  - demo_classified.
  - split; [exact Hkeys|]. eexists. split; [reflexivity|].
    apply Hpass. reflexivity.
Defined.

(** An entry written at time 0 with a time to live of 30 seconds and read
    100 seconds later has the age 30. *)
Lemma hit_age_header_witness :
  ∃ res age,
    (graphql Demo.platform Demo.config (Demo.env_hit 0 30 100000)
       Demo.anonymous).1 = Ok res ∧
    Spec.is_rounding (100000 - 0) 1000 age ∧
    headers res !! "age" = Some (JS.toString (Z.min age 30)) ∧
    (∀ n : Z, headers res !! "age" = Some (JS.toString n) → n <= 30).
Proof.
  refine (hit_age_header Demo.platform Demo.config (Demo.env_hit 0 30 100000)
            Demo.anonymous false Demo.public_query
            (mkFound (Some (mkEntry (object [(Headers.cacheControl, "public")]) "{}"))
                     (Some (mkMetadata 0 30)))
            (mkEntry (object [(Headers.cacheControl, "public")]) "{}")
            (mkMetadata 0 30) _ _ _ _).
  - demo_classified.
  - reflexivity.
  - reflexivity.
  - reflexivity.
Defined.

(** The origin's max-age of 60 is the time to live and both directives. *)
Lemma one_maxAge_everywhere_witness :
  ∃ stored,
    List.filter Spec.is_save
      (graphql Demo.platform Demo.config (Demo.env_miss "public, max-age=60")
         Demo.anonymous).2
    = [EvSave (Spec.derived_key Demo.platform Demo.anonymous false Demo.public_query)
         stored 60] ∧
    entry_headers stored !! "cache-control"
    = Some "public, max-age=60, stale-while-revalidate=60" ∧
    (∀ res,
       (graphql Demo.platform Demo.config (Demo.env_miss "public, max-age=60")
          Demo.anonymous).1 = Ok res →
       headers res !! "cache-control"
       = Some "public, max-age=60, stale-while-revalidate=60") ∧
    (∀ e,
       (graphql Demo.platform Demo.config (Demo.env_miss "public, max-age=60")
          Demo.anonymous).1 = Throw e →
       save (Demo.env_miss "public, max-age=60")
         (Spec.derived_key Demo.platform Demo.anonymous false Demo.public_query)
         stored 60 = Throw e).
Proof.
  refine (one_maxAge_everywhere Demo.platform Demo.config
            (Demo.env_miss "public, max-age=60") Demo.anonymous false
            Demo.public_query (Demo.origin_json "public, max-age=60") "{}"
            _ _ _ _).
  - demo_classified.
  - demo_misses.
  - demo_origin_json.
  - vm_compute. reflexivity.
Defined.



(** The schema store fails: 400, x-cache HIT, gcdn-cache ERROR, and no
    lookup. *)
Lemma caught_error_reports_hit_witness :
  ∃ res, (graphql Demo.platform Demo.config Demo.env_no_schema
            Demo.anonymous).1 = Ok res ∧
         status res = 400 ∧
         headers res !! "x-cache" = Some "HIT" ∧
         headers res !! "gcdn-cache" = Some "ERROR" ∧
         Spec.store_keys
           (graphql Demo.platform Demo.config Demo.env_no_schema
              Demo.anonymous).2 = [].
Proof.
  apply (caught_error_reports_hit Demo.platform Demo.config Demo.env_no_schema
           Demo.anonymous "KV unavailable").
  demo_classified.
Defined.

(** * Further properties of the two files *)

(** ** [isResponsePrivate] *)

(** X1.  [isResponsePrivate] answers true exactly when the Cache-Control
    header contains [private] in any case of letters; a response without
    that header is not private. *)
Theorem isResponsePrivate_spec (res : Response) :
  (isResponsePrivate res = true ↔
   Spec.contains_i (JS.or_empty (headers res !! "cache-control")) "private") ∧
  (headers res !! "cache-control" = None → isResponsePrivate res = false).
Proof.
  unfold isResponsePrivate, Headers.cacheControl. split.
  - pose proof (test_alternatives_i_spec ["private"]
                  (JS.or_empty (headers res !! "cache-control"))) as H.
    destruct (JS.test_alternatives_i _ _).
    + split; [intros _ | reflexivity].
      destruct (proj1 H eq_refl) as (p & [<-|[]] & Hp). exact Hp.
    + split; [discriminate|]. intros Hp.
      apply H. exists "private". split; [now left | exact Hp].
  - intros ->. reflexivity.
Qed.

(** ** Printing and parsing a max-age *)

Lemma pretty_N_char_digit (d : N) :
  (d < 10)%N →
  JS.is_digit (pretty_N_char d) = true ∧
  JS.digit_value (pretty_N_char d) = Z.of_N d.
Proof.
  intros Hd.
  assert (d = 0 ∨ d = 1 ∨ d = 2 ∨ d = 3 ∨ d = 4 ∨ d = 5 ∨ d = 6 ∨ d = 7
          ∨ d = 8 ∨ d = 9)%N as H by lia.
  repeat (destruct H as [->|H]; [split; reflexivity|]). subst d.
  split; reflexivity.
Qed.

Lemma pretty_N_go_digits (x : N) (s : string) :
  Spec.all_digits s = true →
  Spec.all_digits (pretty_N_go x s) = true ∧
  JS.parseInt_acc 0 (pretty_N_go x s) = JS.parseInt_acc (Z.of_N x) s.
Proof.
  revert s. induction (N.lt_wf_0 x) as [x _ IH]; intros s Hs.
  destruct (N.eq_dec x 0%N) as [->|Hx].
  - rewrite pretty_N_go_0. auto.
  - rewrite pretty_N_go_step by lia.
    destruct (pretty_N_char_digit (x `mod` 10)%N) as [Hd Hv].
    { apply N.mod_lt. lia. }
    destruct (IH (x `div` 10)%N ltac:(apply N.div_lt; lia)
                 (String (pretty_N_char (x `mod` 10)%N) s)) as [Ha Hp].
    { simpl. now rewrite Hd, Hs. }
    split; [exact Ha|]. rewrite Hp. simpl. rewrite Hv. f_equal.
    rewrite (N.div_mod x 10) at 3 by lia. lia.
Qed.

(** An integer that is not negative prints as the run of digits that
    writes it. *)
Lemma toString_digits (n : Z) :
  0 <= n →
  Spec.all_digits (JS.toString n) = true ∧
  JS.toString n ≠ EmptyString ∧
  JS.parseInt_acc 0 (JS.toString n) = n.
Proof.
  intros Hn. destruct n as [|p|p]; [now repeat split | | lia].
  unfold JS.toString, pretty, pretty_Z, pretty, pretty_positive, pretty,
    pretty_N.
  destruct (decide (N.pos p = 0%N)) as [H|_]; [discriminate H|].
  destruct (pretty_N_go_digits (N.pos p) EmptyString eq_refl) as [Ha Hp].
  rewrite Hp. simpl.
  split; [exact Ha|]. split; [|reflexivity].
  intros He. rewrite He in Hp. simpl in Hp. discriminate Hp.
Qed.

Lemma span_digits_append (ds rest : string) :
  Spec.all_digits ds = true → Spec.starts_with_digit rest = false →
  JS.span_digits (ds +:+ rest) = (ds, rest).
Proof.
  intros Hd Hr. induction ds as [|c ds IH]; str_simpl.
  - destruct rest as [|c rest]; simpl in *; [reflexivity | now rewrite Hr].
  - simpl in Hd. apply andb_prop in Hd as [Hc Hd].
    simpl. rewrite Hc, (IH Hd). reflexivity.
Qed.

Lemma match_digits_at_append (lit ds rest : string) :
  ds ≠ EmptyString → Spec.all_digits ds = true →
  Spec.starts_with_digit rest = false →
  JS.match_digits_at lit (lit +:+ ds +:+ rest) = Some ds.
Proof.
  intros Hne Hd Hr. unfold JS.match_digits_at.
  rewrite (proj2 (stripPrefix_spec lit _ (ds +:+ rest)) eq_refl).
  rewrite (span_digits_append ds rest Hd Hr).
  destruct ds; [congruence | reflexivity].
Qed.

Lemma match_literal_digits_skip (lit s : string) (c : ascii) :
  JS.match_digits_at lit (String c s) = None →
  JS.match_literal_digits lit (String c s) = JS.match_literal_digits lit s.
Proof. intros H. rewrite match_literal_digits_unfold, H. reflexivity. Qed.

(** X2.  The Cache-Control text that the handler writes for a time to
    live from 0 to 2^53, the integers that a number holds, prints and
    reads exactly, is read back by [parseMaxAge] as that time to live,
    for the private and for the public form; so an answer of the handler
    that comes back as the answer of an origin gets the same time to
    live, whatever the configured default. *)
Theorem parseMaxAge_of_emitted (cfg : Config) (hp : bool) (n : Z) :
  0 <= n <= 2 ^ 53 →
  parseMaxAge (cache_control_text (if hp then "private" else "public") n)
  = JS.Int n ∧
  choose_maxAge cfg
    (Some (cache_control_text (if hp then "private" else "public") n))
  = JS.Int n.
Proof.
  intros Hb. pose proof (proj1 Hb) as Hn.
  destruct (toString_digits n Hn) as (Hd & Hne & Hp).
  assert (Hparse :
    parseMaxAge (cache_control_text (if hp then "private" else "public") n)
    = JS.Int n).
  { unfold parseMaxAge, cache_control_text.
    assert (Hm : JS.match_literal_digits "max-age="
              ("max-age=" +:+ JS.toString n
                 +:+ ", stale-while-revalidate=" +:+ JS.toString n)
            = Some (JS.toString n)).
    { rewrite match_literal_digits_unfold.
      rewrite match_digits_at_append by (assumption || reflexivity).
      reflexivity. }
    destruct hp; str_simpl;
      repeat (rewrite match_literal_digits_skip by reflexivity);
      rewrite Hm; unfold JS.parseInt; rewrite Hp;
      now apply to_double_small. }
  split; [exact Hparse|].
  unfold choose_maxAge.
  replace (JS.truthy (Some (cache_control_text
             (if hp then "private" else "public") n))) with true
    by (destruct hp; reflexivity).
  unfold JS.or_empty. simpl default. rewrite Hparse.
  unfold JS.gtb. destruct (Z.gtb_spec n (-1)); [reflexivity | lia].
Qed.

Lemma parseMaxAge_of_emitted_witness :
  parseMaxAge (cache_control_text "private" 900) = JS.Int 900 ∧
  choose_maxAge Demo.config (Some (cache_control_text "private" 900))
  = JS.Int 900.
Proof.
  apply (parseMaxAge_of_emitted Demo.config true 900).
  split; [lia | vm_compute; discriminate].
Defined.

(** ** More about the handler *)

Section MoreHandlerFacts.

Context (P : Platform) (cfg : Config).

(** The entries of the default headers. *)
Lemma defaults_lookup (now : Z) (k : string) :
  defaultResponseHeaders P now !! k =
  if decide (Headers.gcdnCache = k) then Some CacheHitHeader.MISS
  else if decide (Headers.xCache = k) then Some CacheHitHeader.MISS
  else if decide (Headers.accessControlMaxAge = k) then Some "300"
  else if decide (Headers.date = k) then Some (toUTCString P now)
  else if decide (Headers.contentType = k) then Some "application/json"
  else None.
Proof.
  unfold defaultResponseHeaders, object. simpl.
  rewrite !lookup_insert, lookup_empty. reflexivity.
Qed.

(** The four ways of a request through the first lines of the handler. *)
Lemma graphql_cases (env : Env P) (req : Request) :
  JS.truthy (query (req_body req)) = false ∨
  (JS.truthy (query (req_body req)) = true ∧
   ∃ e, parse P (Spec.query_text req) = Throw e) ∨
  (∃ e, Spec.classification_throws P cfg env req e) ∨
  (∃ hp im c, Spec.classified P cfg env req hp im c).
Proof.
  unfold Spec.classification_throws, Spec.classified.
  destruct (JS.truthy (query (req_body req))); [|now left]. right.
  destruct (parse P (Spec.query_text req)) as [doc|e] eqn:Hp; [|left; eauto].
  right.
  destruct (classify P cfg env doc (Spec.query_text req)).1
    as [[[hp im] c]|e] eqn:Hc.
  - right. exists hp, im, c. eauto.
  - left. exists e. eauto.
Qed.

(** The list of private types of line 24 is never empty, so the test of
    its length at line 51 always succeeds. *)
Lemma split_on_nonempty (sep : ascii) (s : string) : JS.split_on sep s ≠ [].
Proof.
  induction s as [|c s IH]; simpl; [discriminate|].
  destruct (Ascii.eqb c sep); [discriminate|].
  destruct (JS.split_on sep s); discriminate.
Qed.

(** X3.  When the schema store has no schema, [hasIntersectedTypes] is
    not asked: the classification ends as [normalizeDocument] and
    [isMutation] end, with no private type found.  So no request is then
    classified as touching a private type, and the key of a query is the
    digest of the normalized query alone, whatever credential the caller
    sends. *)
Theorem no_schema_no_private_key (env : Env P) (req : Request) :
  latest env = Ok None →
  (∀ doc text,
     (classify P cfg env doc text).1
     = match normalizeDocument P text with
       | Throw e => Throw e
       | Ok content =>
           match isMutation P doc with
           | Throw e => Throw e
           | Ok isMutationRequest => Ok (false, isMutationRequest, content)
           end
       end) ∧
  (∀ hp im c,
     Spec.classified P cfg env req hp im c →
     hp = false ∧
     (im = false →
      ∃ rest, (graphql P cfg env req).2
              = EvLatest :: EvHash c :: EvFind (SHA256 P c) :: rest)).
Proof.
  intros Hl.
  assert (Hcl : ∀ doc text,
     (classify P cfg env doc text).1
     = match normalizeDocument P text with
       | Throw e => Throw e
       | Ok content =>
           match isMutation P doc with
           | Throw e => Throw e
           | Ok isMutationRequest => Ok (false, isMutationRequest, content)
           end
       end).
  { intros doc text. rewrite classify_result, Hl. reflexivity. }
  split; [exact Hcl|]. intros hp im c Hc.
  assert (Hhp : hp = false).
  { destruct Hc as (_ & doc & _ & Hc). rewrite Hcl in Hc.
    destruct (normalizeDocument P _); [|discriminate].
    destruct (isMutation P doc); [|discriminate]. congruence. }
  split; [exact Hhp|]. intros ->. subst hp.
  destruct (graphql_query_trace P cfg env req false c Hc) as (rest & Ht & _).
  exists rest. exact Ht.
Qed.

(** X4.  When the content type of the origin's answer does not name
    JSON, or is missing, the handler answers 415 with the message of line
    200, gcdn-cache PASS and x-cache MISS, and writes nothing to the
    store, for a mutation as for a query that missed the cache and even
    when the decision would have been to store. *)
Theorem unsupported_content_type (env : Env P) (req : Request)
    (hp im : bool) (c : string) (response : Response) :
  Spec.classified P cfg env req hp im c →
  (im = false → Spec.misses P env (Spec.derived_key P req hp c)) →
  fetch env (origin cfg) (req_body req) (req_headers req) (req_method req)
  = Ok response →
  (∀ ct, headers response !! "content-type" = Some ct →
         ¬ Spec.contains ct "application/json") →
  ∃ res,
    (graphql P cfg env req).1 = Ok res ∧
    status res = 415 ∧
    body res
    = ErrorObject (unsupported_text cfg (headers response !! "content-type")) ∧
    headers res !! "gcdn-cache" = Some "PASS" ∧
    headers res !! "x-cache" = Some "MISS" ∧
    existsb Spec.is_save (graphql P cfg env req).2 = false.
Proof.
  intros Hc Hm Hf Hct.
  assert (Hnot : match headers response !! Headers.contentType with
                 | Some ct => JS.includes ct "application/json"
                 | None => false
                 end = false).
  { unfold Headers.contentType.
    destruct (headers response !! "content-type") as [ct|] eqn:E;
      [|reflexivity].
    destruct (JS.includes ct "application/json") eqn:Hi; [|reflexivity].
    apply includes_spec in Hi. now destruct (Hct ct eq_refl). }
  rewrite (graphql_classified P cfg _ _ _ _ _ Hc).
  unfold derive_signature, lookup, refresh, Spec.derived_key in *.
  destruct im; simpl negb; simpl andb; cbv iota.
  - unfold bind, call, lift, ret. cbv zeta. rewrite Hf, Hnot. simpl.
    eexists. split; [reflexivity|]. repeat (split; [reflexivity|]).
    reflexivity.
  - destruct (Hm eq_refl) as (found & Hfind & Hv).
    destruct hp; unfold bind, call, lift, ret; cbv zeta;
      rewrite Hfind, Hv, Hf, Hnot; simpl;
      (eexists; split; [reflexivity|]; repeat (split; [reflexivity|]);
       reflexivity).
Qed.

(** X5.  A hit is answered from the entry alone: the only calls are the
    schema read, the digest and the lookup, so the origin is not called
    and nothing is written, whatever state the origin is in; the status
    is 200, the body is the stored body, and both gcdn-cache and x-cache
    say HIT. *)
Theorem hit_is_served_from_cache (env : Env P) (req : Request) (hp : bool)
    (c : string) (found : Found) (cached : CachedEntry) :
  Spec.classified P cfg env req hp false c →
  find env (Spec.derived_key P req hp c) = Ok found →
  value found = Some cached →
  ∃ res,
    graphql P cfg env req
    = (Ok res, [EvLatest; EvHash (Spec.hashed_text req hp c);
                EvFind (Spec.derived_key P req hp c)]) ∧
    status res = 200 ∧
    body res = Text (entry_body cached) ∧
    headers res !! "gcdn-cache" = Some "HIT" ∧
    headers res !! "x-cache" = Some "HIT".
Proof.
  intros Hc Hf Hv. rewrite (graphql_hit P cfg _ _ _ _ _ _ Hc Hf Hv).
  eexists. split; [reflexivity|]. unfold serve_hit.
  destruct (metadata found); simpl;
    (repeat (split; [reflexivity|]);
     first [reflexivity
           | split; [rewrite lookup_insert_ne by keys_differ|];
             apply lookup_insert_eq]).
Qed.

(** X6.  The headers of a hit.  Apart from age, gcdn-cache and x-cache, a
    header of the answer is the default header of that name when there is
    one and the stored header otherwise: the stored Cache-Control is
    replayed, a stored content type is replaced.  When the entry has no
    metadata the handler sets no Age header, and the answer has the
    stored one, if any. *)
Theorem hit_header_precedence (env : Env P) (req : Request) (hp : bool)
    (c : string) (found : Found) (cached : CachedEntry) :
  Spec.classified P cfg env req hp false c →
  find env (Spec.derived_key P req hp c) = Ok found →
  value found = Some cached →
  ∃ res,
    (graphql P cfg env req).1 = Ok res ∧
    (∀ k, k ≠ "age" → k ≠ "gcdn-cache" → k ≠ "x-cache" →
          headers res !! k
          = match defaultResponseHeaders P (now_start env) !! k with
            | Some v => Some v
            | None => entry_headers cached !! k
            end) ∧
    headers res !! "cache-control" = entry_headers cached !! "cache-control" ∧
    headers res !! "content-type" = Some "application/json" ∧
    (metadata found = None →
     headers res !! "age" = entry_headers cached !! "age").
Proof.
  intros Hc Hf Hv. rewrite (graphql_hit P cfg _ _ _ _ _ _ Hc Hf Hv).
  eexists. split; [reflexivity|].
  assert (Hmerge : ∀ k,
    spread (entry_headers cached) (defaultResponseHeaders P (now_start env)) !! k
    = match defaultResponseHeaders P (now_start env) !! k with
      | Some v => Some v
      | None => entry_headers cached !! k
      end).
  { intros k. unfold spread.
    destruct (defaultResponseHeaders P (now_start env) !! k) as [v|] eqn:E.
    - now apply lookup_union_Some_l.
    - now apply lookup_union_r. }
  assert (Hother : ∀ k, k ≠ "age" → k ≠ "gcdn-cache" → k ≠ "x-cache" →
    headers (serve_hit P env (defaultResponseHeaders P (now_start env))
               found cached) !! k
    = match defaultResponseHeaders P (now_start env) !! k with
      | Some v => Some v
      | None => entry_headers cached !! k
      end).
  { intros k Ha Hg Hx. unfold serve_hit.
    destruct (metadata found); simpl;
      rewrite !lookup_insert_ne by (unfold Headers.xCache, Headers.gcdnCache,
                                      Headers.age; congruence);
      apply Hmerge. }
  split; [exact Hother|]. split; [|split].
  - rewrite Hother by discriminate. now rewrite defaults_lookup.
  - rewrite Hother by discriminate. now rewrite defaults_lookup.
  - intros Hm. unfold serve_hit. rewrite Hm. simpl.
    rewrite !lookup_insert_ne by keys_differ.
    unfold Headers.age. rewrite Hmerge. now rewrite defaults_lookup.
Qed.

(** X7.  An answer that is not to be stored (the query touches no
    private type and [isResponseCachable] refuses the origin's response)
    is passed on: the body is the decoded body of the origin, gcdn-cache
    says PASS, x-cache says MISS, the handler sets no Cache-Control of its
    own, and after the origin call nothing else is called. *)
Theorem uncacheable_is_passed_through (env : Env P) (req : Request)
    (c : string) (response : Response) (text : string) :
  Spec.classified P cfg env req false false c →
  Spec.misses P env (SHA256 P c) →
  Spec.origin_answers_json P cfg env req response text →
  isResponseCachable response = false →
  ∃ res,
    graphql P cfg env req
    = (Ok res, [EvLatest; EvHash c; EvFind (SHA256 P c);
                EvFetch (origin cfg) (req_body req)]) ∧
    body res = Text text ∧
    headers res !! "gcdn-cache" = Some "PASS" ∧
    headers res !! "x-cache" = Some "MISS" ∧
    headers res !! "cache-control" = spread_headers P response !! "cache-control".
Proof.
  intros Hc Hm Ho Hno.
  rewrite (graphql_miss P cfg _ _ _ _ _ _ Hc Hm Ho). cbv zeta.
  rewrite Hno. simpl orb. cbv iota.
  eexists. split; [reflexivity|]. split; [reflexivity|]. simpl.
  split; [apply lookup_insert_eq|].
  rewrite !lookup_insert_ne by keys_differ. unfold spread. split.
  - apply lookup_union_Some_l. now rewrite defaults_lookup.
  - apply lookup_union_r. now rewrite defaults_lookup.
Qed.

(** X8.  A write that the store refuses is not fatal.  On a miss whose
    answer is to be stored, the handler returns one and the same
    response whether [save] answers true or false: the status that the
    spread of the origin's response gives, or 200, the decoded body of
    the origin, and the stored headers with gcdn-cache set to PASS.  The
    calls are the same up to the write; a refusal adds the log of it and
    nothing else. *)
Theorem store_refusal_is_not_fatal (env : Env P) (req : Request) (hp : bool)
    (c : string) (response : Response) (text : string) (b : bool) :
  Spec.classified P cfg env req hp false c →
  Spec.misses P env (Spec.derived_key P req hp c) →
  Spec.origin_answers_json P cfg env req response text →
  isResponseCachable response || hp = true →
  save env (Spec.derived_key P req hp c)
    (Spec.stored_answer P cfg env hp response text)
    (Spec.chosen_maxAge cfg response) = Ok b →
  graphql P cfg env req
  = (Ok (mkResponse
           (default 200 (spread_status P response))
           (<["gcdn-cache" := "PASS"]>
              (entry_headers (Spec.stored_answer P cfg env hp response text)))
           (Text text)),
     [EvLatest; EvHash (Spec.hashed_text req hp c);
      EvFind (Spec.derived_key P req hp c);
      EvFetch (origin cfg) (req_body req);
      EvSave (Spec.derived_key P req hp c)
        (Spec.stored_answer P cfg env hp response text)
        (Spec.chosen_maxAge cfg response)]
     ++ (if b then [] else [EvLog "query could not be stored in cache"]))%list.
Proof.
  intros Hc Hm Ho Hdec Hsave.
  rewrite (graphql_miss P cfg _ _ _ _ _ _ Hc Hm Ho). cbv zeta.
  rewrite Hdec, choose_maxAge_spec.
  change (mkEntry
            (headers
               (headers_set Headers.cacheControl
                  (cache_control_text (if hp then "private" else "public")
                     (Spec.chosen_maxAge cfg response))
                  (new_Response text (spread_status P response)
                     (spread (spread_headers P response)
                        (defaultResponseHeaders P (now_start env))))))
            text)
    with (Spec.stored_answer P cfg env hp response text).
  rewrite Hsave. destruct b; reflexivity.
Qed.

(** X9.  What is written to the store is the answer as it stands before
    the PASS mark is set: the stored body is the decoded body of the
    origin, the stored headers say MISS for gcdn-cache and for x-cache,
    and the headers of the response are the stored headers with
    gcdn-cache set to PASS. *)
Theorem stored_snapshot (env : Env P) (req : Request) (hp : bool)
    (c : string) (response : Response) (text : string) :
  Spec.classified P cfg env req hp false c →
  Spec.misses P env (Spec.derived_key P req hp c) →
  Spec.origin_answers_json P cfg env req response text →
  isResponseCachable response || hp = true →
  ∃ stored,
    In (EvSave (Spec.derived_key P req hp c) stored
          (Spec.chosen_maxAge cfg response))
       (graphql P cfg env req).2 ∧
    entry_body stored = text ∧
    entry_headers stored !! "gcdn-cache" = Some "MISS" ∧
    entry_headers stored !! "x-cache" = Some "MISS" ∧
    (∀ res, (graphql P cfg env req).1 = Ok res →
            body res = Text (entry_body stored) ∧
            headers res = <["gcdn-cache" := "PASS"]> (entry_headers stored)).
Proof.
  intros Hc Hm Ho Hdec.
  rewrite (graphql_miss P cfg _ _ _ _ _ _ Hc Hm Ho). cbv zeta.
  rewrite Hdec, choose_maxAge_spec.
  eexists. split; [|split; [|split; [|split]]].
  - destruct (save env _ _ _) as [[]|]; simpl; do 4 right; now left.
  - reflexivity.
  - simpl. rewrite lookup_insert_ne by keys_differ. unfold spread.
    apply lookup_union_Some_l. now rewrite defaults_lookup.
  - simpl. rewrite lookup_insert_ne by keys_differ. unfold spread.
    apply lookup_union_Some_l. now rewrite defaults_lookup.
  - intros res. destruct (save env _ _ _) as [[]|]; intros [= <-];
      split; reflexivity.
Qed.

(** X10.  An entry that a miss wrote is replayed by a hit.  When a
    request finds the entry that an earlier request stored, its answer
    has the body that the origin sent then and the Cache-Control that was
    written then, with the time to live chosen then, and it says HIT; it
    agrees in body and Cache-Control with the response of the earlier
    request. *)
Theorem stored_entry_is_replayed (env1 env2 : Env P) (req1 req2 : Request)
    (hp1 hp2 : bool) (c1 c2 : string) (response : Response) (text : string)
    (k : string) (stored : CachedEntry) (ttl : JS.number)
    (md : option Metadata) :
  Spec.classified P cfg env1 req1 hp1 false c1 →
  Spec.misses P env1 (Spec.derived_key P req1 hp1 c1) →
  Spec.origin_answers_json P cfg env1 req1 response text →
  In (EvSave k stored ttl) (graphql P cfg env1 req1).2 →
  Spec.classified P cfg env2 req2 hp2 false c2 →
  find env2 (Spec.derived_key P req2 hp2 c2) = Ok (mkFound (Some stored) md) →
  ∃ res2,
    (graphql P cfg env2 req2).1 = Ok res2 ∧
    body res2 = Text text ∧
    headers res2 !! "cache-control"
    = Some (cache_control_text (if hp1 then "private" else "public") ttl) ∧
    ttl = Spec.chosen_maxAge cfg response ∧
    headers res2 !! "gcdn-cache" = Some "HIT" ∧
    (∀ res1, (graphql P cfg env1 req1).1 = Ok res1 →
             body res2 = body res1 ∧
             headers res2 !! "cache-control" = headers res1 !! "cache-control").
Proof.
  intros Hc1 Hm1 Ho1 Hin Hc2 Hf2.
  rewrite (graphql_miss P cfg _ _ _ _ _ _ Hc1 Hm1 Ho1) in *. cbv zeta in *.
  rewrite choose_maxAge_spec in *.
  rewrite (graphql_hit P cfg _ _ _ _ _ _ Hc2 Hf2 eq_refl).
  destruct (isResponseCachable response || hp1).
  2:{ simpl in Hin. repeat (destruct Hin as [Hin|Hin]; [discriminate Hin|]).
      contradiction. }
  assert (Hst : stored
    = mkEntry
        (headers
           (headers_set Headers.cacheControl
              (cache_control_text (if hp1 then "private" else "public")
                 (Spec.chosen_maxAge cfg response))
              (new_Response text (spread_status P response)
                 (spread (spread_headers P response)
                    (defaultResponseHeaders P (now_start env1))))))
        text ∧ ttl = Spec.chosen_maxAge cfg response).
  { destruct (save env1 _ _ _) as [[]|]; simpl in Hin;
      repeat (destruct Hin as [Hin|Hin];
              [first [discriminate Hin | injection Hin as _ <- <-; now split]|]);
      contradiction. }
  destruct Hst as [-> ->].
  assert (Hcc : headers (serve_hit P env2
                  (defaultResponseHeaders P (now_start env2))
                  (mkFound (Some
                     (mkEntry
                        (headers
                           (headers_set Headers.cacheControl
                              (cache_control_text
                                 (if hp1 then "private" else "public")
                                 (Spec.chosen_maxAge cfg response))
                              (new_Response text (spread_status P response)
                                 (spread (spread_headers P response)
                                    (defaultResponseHeaders P (now_start env1))))))
                        text)) md)
                  (mkEntry
                        (headers
                           (headers_set Headers.cacheControl
                              (cache_control_text
                                 (if hp1 then "private" else "public")
                                 (Spec.chosen_maxAge cfg response))
                              (new_Response text (spread_status P response)
                                 (spread (spread_headers P response)
                                    (defaultResponseHeaders P (now_start env1))))))
                        text)) !! "cache-control"
          = Some (cache_control_text (if hp1 then "private" else "public")
                    (Spec.chosen_maxAge cfg response))).
  { unfold serve_hit. destruct md; simpl;
      rewrite !lookup_insert_ne by keys_differ; unfold spread at 1;
      (rewrite lookup_union_r by (now rewrite defaults_lookup));
      apply lookup_insert_eq. }
  eexists. split; [reflexivity|].
  split; [unfold serve_hit; destruct md; reflexivity|].
  split; [exact Hcc|]. split; [reflexivity|].
  split.
  { unfold serve_hit. destruct md; simpl;
      rewrite lookup_insert_ne by keys_differ; apply lookup_insert_eq. }
  intros res1 H1. rewrite Hcc.
  destruct (save env1 _ _ _) as [[]|]; simpl in H1; try discriminate H1;
    injection H1 as <-; (split; [unfold serve_hit; destruct md; reflexivity|]);
    simpl; rewrite lookup_insert_ne by keys_differ;
    symmetry; apply lookup_insert_eq.
Qed.

Lemma choose_maxAge_nonneg (v : option string) :
  0 <= defaultMaxAgeInSeconds cfg → Spec.not_negative (choose_maxAge cfg v).
Proof.
  intros Hd. unfold choose_maxAge.
  destruct (JS.truthy v); [|exact Hd]. cbv zeta.
  destruct (parseMaxAge (JS.or_empty v)) as [z|]; simpl; [|exact I].
  destruct (Z.gtb_spec z (-1)); simpl; [lia | exact Hd].
Qed.

Ltac run_handler :=
  unfold derive_signature, lookup, refresh, bind, call, lift, ret;
  simpl negb; simpl andb; cbv iota; cbv zeta;
  repeat (case_match; simplify_eq/=).

Ltac default_header :=
  unfold serve_hit, caught_headers, spread, object; simpl;
  repeat case_match; simpl;
  rewrite ?lookup_insert_ne by keys_differ;
  first [ apply lookup_union_Some_l; rewrite defaults_lookup; reflexivity
        | rewrite defaults_lookup; reflexivity ].

(** X11.  Every response that the handler builds for a body with a query
    text has the content type application/json, the header
    access-control-max-age 300 and a date header that prints the time at
    which the request arrived, on every path: caught exception, hit,
    stored answer, passed answer and unsupported content type.  Stored or
    origin headers of these names do not show. *)
Theorem default_headers_everywhere (env : Env P) (req : Request)
    (res : Response) :
  JS.truthy (query (req_body req)) = true →
  (graphql P cfg env req).1 = Ok res →
  headers res !! "content-type" = Some "application/json" ∧
  headers res !! "access-control-max-age" = Some "300" ∧
  headers res !! "date" = Some (toUTCString P (now_start env)).
Proof.
  intros Ht Hres.
  destruct (graphql_cases env req) as [H|[(_ & e & H)|[(e & H)|(hp & im & c & H)]]].
  - congruence.
  - rewrite (graphql_parse_error P cfg _ _ _ Ht H) in Hres. discriminate.
  - rewrite (graphql_caught P cfg _ _ _ H) in Hres. injection Hres as <-.
    simpl. unfold caught_headers, spread, object. simpl.
    rewrite !lookup_union_r, !defaults_lookup by reflexivity. auto.
  - rewrite (graphql_classified P cfg _ _ _ _ _ H) in Hres.
    revert Hres. run_handler; intros [= <-];
      (split; [|split]); default_header.
Qed.

Ltac split_In H :=
  simpl in H;
  repeat (destruct H as [H|H]; [try discriminate H|]); try contradiction.

(** X12.  The handler writes to the store at most once, and only after
    the lookup and the origin call of the same request: a trace with a
    write is the schema read, the digest of one text, the lookup under
    that digest, the origin call and the write under the same key,
    followed by nothing or by the log of a refused write. *)
Theorem write_follows_lookup_and_origin (env : Env P) (req : Request)
    (k : string) (stored : CachedEntry) (ttl : JS.number) :
  In (EvSave k stored ttl) (graphql P cfg env req).2 →
  ∃ txt tail,
    (graphql P cfg env req).2
    = EvLatest :: EvHash txt :: EvFind k
        :: EvFetch (origin cfg) (req_body req) :: EvSave k stored ttl :: tail ∧
    k = SHA256 P txt ∧
    (tail = [] ∨ tail = [EvLog "query could not be stored in cache"]).
Proof.
  intros Hin.
  destruct (graphql_cases env req) as [H|[(Ht & e & H)|[(e & H)|(hp & im & c & H)]]].
  - rewrite (graphql_no_query P cfg _ _ H) in Hin. split_In Hin.
  - rewrite (graphql_parse_error P cfg _ _ _ Ht H) in Hin. split_In Hin.
  - rewrite (graphql_caught P cfg _ _ _ H) in Hin. split_In Hin.
  - rewrite (graphql_classified P cfg _ _ _ _ _ H) in *.
    revert Hin. run_handler; intros Hin; split_In Hin;
      injection Hin as <- <- <-; eexists; eexists;
      (split; [reflexivity|]); split; auto.
Qed.

(** X13.  With a default time to live that is not negative, the time to
    live of every write to the store is not negative (it is an integer
    from 0 on, or Infinity). *)
Theorem stored_ttl_nonneg (env : Env P) (req : Request)
    (k : string) (stored : CachedEntry) (ttl : JS.number) :
  0 <= defaultMaxAgeInSeconds cfg →
  In (EvSave k stored ttl) (graphql P cfg env req).2 →
  Spec.not_negative ttl.
Proof.
  intros Hd Hin.
  destruct (graphql_cases env req) as [H|[(Ht & e & H)|[(e & H)|(hp & im & c & H)]]].
  - rewrite (graphql_no_query P cfg _ _ H) in Hin. split_In Hin.
  - rewrite (graphql_parse_error P cfg _ _ _ Ht H) in Hin. split_In Hin.
  - rewrite (graphql_caught P cfg _ _ _ H) in Hin. split_In Hin.
  - rewrite (graphql_classified P cfg _ _ _ _ _ H) in *.
    revert Hin. run_handler; intros Hin; split_In Hin;
      injection Hin as _ _ <-; now apply choose_maxAge_nonneg.
Qed.

(** X14.  The parser's exception is not caught.  When the body has a
    query text that the parser refuses, the handler ends with the
    parser's exception and builds no response, in whatever state the
    schema store, the cache store and the origin are: it has called none
    of them. *)
Theorem parse_error_is_not_caught (req : Request) (e : string) :
  JS.truthy (query (req_body req)) = true →
  parse P (Spec.query_text req) = Throw e →
  ∀ env, graphql P cfg env req = (Throw e, []).
Proof. intros Ht Hp env. now apply graphql_parse_error. Qed.

(** X16.  A failure of the store or of the origin ends the request with
    that exception.  When the lookup throws, the origin is not called;
    when the origin call or the decoding of its JSON body throws, nothing
    is written; when the write throws, no response is returned although
    the answer of the origin was at hand. *)
Theorem failures_propagate (env : Env P) (req : Request) (hp : bool)
    (c : string) (e : string) :
  Spec.classified P cfg env req hp false c →
  (find env (Spec.derived_key P req hp c) = Throw e →
   graphql P cfg env req
   = (Throw e, [EvLatest; EvHash (Spec.hashed_text req hp c);
                EvFind (Spec.derived_key P req hp c)])) ∧
  (Spec.misses P env (Spec.derived_key P req hp c) →
   Spec.origin_fails P cfg env req e →
   (∀ response, fetch env (origin cfg) (req_body req) (req_headers req)
                  (req_method req) = Ok response →
                ∃ ct, headers response !! "content-type" = Some ct ∧
                      Spec.contains ct "application/json") →
   (graphql P cfg env req).1 = Throw e ∧
   existsb Spec.is_save (graphql P cfg env req).2 = false) ∧
  (∀ k stored ttl,
     In (EvSave k stored ttl) (graphql P cfg env req).2 →
     save env k stored ttl = Throw e →
     (graphql P cfg env req).1 = Throw e).
Proof.
  intros Hc. split; [|split].
  - intros Hf. rewrite (graphql_classified P cfg _ _ _ _ _ Hc).
    unfold derive_signature, lookup, Spec.derived_key, Spec.hashed_text in *.
    simpl negb. simpl andb. cbv iota.
    destruct hp; unfold bind, call, lift, ret; cbv zeta; rewrite Hf;
      reflexivity.
  - intros (found & Hf & Hv) Hfail Hjson.
    rewrite (graphql_classified P cfg _ _ _ _ _ Hc).
    unfold derive_signature, lookup, refresh, Spec.derived_key,
      Spec.origin_fails in *.
    simpl negb. simpl andb. cbv iota.
    destruct Hfail as [Hfetch|(response & Hfetch & Hj)].
    + destruct hp; unfold bind, call, lift, ret; cbv zeta;
        rewrite Hf, Hv, Hfetch; simpl; auto.
    + destruct (Hjson response Hfetch) as (ct & Hct & Hin).
      apply includes_spec in Hin. unfold Headers.contentType.
      destruct hp; unfold bind, call, lift, ret; cbv zeta;
        rewrite Hf, Hv, Hfetch, Hct, Hin, Hj; simpl; auto.
  - intros k stored ttl Hin Hs.
    rewrite (graphql_classified P cfg _ _ _ _ _ Hc) in *.
    revert Hin. run_handler; intros Hin; split_In Hin;
      injection Hin as <- <- <-; congruence.
Qed.

(** X17.  The handler does not look at a private directive of the
    origin.  When the query touches no private type and the origin
    answers with a Cache-Control that says private and that
    [isResponseCachable] accepts, the answer is written under the digest
    of the normalized query alone, the key of every caller, and both the
    stored and the returned Cache-Control say public. *)
Theorem origin_private_is_stored_as_public (env : Env P) (req : Request)
    (c : string) (response : Response) (text : string) :
  Spec.classified P cfg env req false false c →
  Spec.misses P env (SHA256 P c) →
  Spec.origin_answers_json P cfg env req response text →
  isResponsePrivate response = true →
  isResponseCachable response = true →
  ∃ stored,
    In (EvSave (SHA256 P c) stored (Spec.chosen_maxAge cfg response))
       (graphql P cfg env req).2 ∧
    entry_body stored = text ∧
    entry_headers stored !! "cache-control"
    = Some (cache_control_text "public" (Spec.chosen_maxAge cfg response)) ∧
    (∀ res, (graphql P cfg env req).1 = Ok res →
            headers res !! "cache-control"
            = Some (cache_control_text "public"
                      (Spec.chosen_maxAge cfg response))).
Proof.
  intros Hc Hm Ho _ Hok.
  rewrite (graphql_miss P cfg _ _ _ _ _ _ Hc Hm Ho). cbv zeta.
  rewrite Hok, choose_maxAge_spec. simpl orb. cbv iota.
  eexists. split; [|split; [|split]].
  - destruct (save env _ _ _) as [[]|]; simpl; do 4 right; now left.
  - reflexivity.
  - simpl. apply lookup_insert_eq.
  - intros res. destruct (save env _ _ _) as [[]|]; intros [= <-]; simpl;
      rewrite lookup_insert_ne by keys_differ; apply lookup_insert_eq.
Qed.

(** X18.  A mutation is forwarded and its answer handed back: the only
    calls are the schema read and the origin call with the body of the
    request, the body of the response is the decoded body of the origin,
    gcdn-cache says PASS and x-cache says MISS, also when the origin's
    response would be cacheable and the mutation touches a private
    type. *)
Theorem mutation_is_forwarded (env : Env P) (req : Request) (hp : bool)
    (c : string) (response : Response) (text : string) :
  Spec.classified P cfg env req hp true c →
  Spec.origin_answers_json P cfg env req response text →
  ∃ res,
    graphql P cfg env req
    = (Ok res, [EvLatest; EvFetch (origin cfg) (req_body req)]) ∧
    body res = Text text ∧
    headers res !! "gcdn-cache" = Some "PASS" ∧
    headers res !! "x-cache" = Some "MISS".
Proof.
  intros Hc (Hfetch & (ct & Hct & Hjson) & Htext).
  apply includes_spec in Hjson.
  rewrite (graphql_classified P cfg _ _ _ _ _ Hc).
  unfold derive_signature, lookup, refresh.
  simpl negb. simpl andb. cbv iota.
  unfold bind, call, lift, ret. cbv zeta.
  rewrite Hfetch. unfold Headers.contentType. rewrite Hct, Hjson, Htext.
  simpl.
  eexists. split; [reflexivity|]. split; [reflexivity|]. simpl.
  split; [apply lookup_insert_eq|].
  rewrite lookup_insert_ne by keys_differ. unfold spread.
  apply lookup_union_Some_l. now rewrite defaults_lookup.
Qed.

End MoreHandlerFacts.

(** ** The further properties on the small platform *)

(** Alice's private query when no schema is stored: the key has no
    token in it. *)
Lemma no_schema_no_private_key_witness :
  ∃ rest,
    (graphql Demo.platform Demo.config (Demo.env_schemaless "max-age=60")
       Demo.alice).2
    = EvLatest :: EvHash Demo.private_query
        :: EvFind (SHA256 Demo.platform Demo.private_query) :: rest.
Proof.
  refine (proj2 (proj2 (no_schema_no_private_key Demo.platform Demo.config
            (Demo.env_schemaless "max-age=60") Demo.alice _)
            false false Demo.private_query _) eq_refl).
  - reflexivity.
  - demo_classified.
Defined.

(** An origin that answers text/plain. *)
Lemma unsupported_content_type_witness :
  ∃ res,
    (graphql Demo.platform Demo.config Demo.env_plain Demo.anonymous).1 = Ok res ∧
    status res = 415 ∧
    body res
    = ErrorObject (unsupported_text Demo.config
                     (headers Demo.origin_plain !! "content-type")) ∧
    headers res !! "gcdn-cache" = Some "PASS" ∧
    headers res !! "x-cache" = Some "MISS" ∧
    existsb Spec.is_save
      (graphql Demo.platform Demo.config Demo.env_plain Demo.anonymous).2
    = false.
Proof.
  refine (unsupported_content_type Demo.platform Demo.config Demo.env_plain
            Demo.anonymous false false Demo.public_query Demo.origin_plain
            _ _ _ _).
  - demo_classified.
  - intros _. demo_misses.
  - reflexivity.
  - intros ct Hct Hin. apply includes_spec in Hin.
    vm_compute in Hct. injection Hct as <-. vm_compute in Hin.
    discriminate Hin.
Defined.

Lemma hit_is_served_from_cache_witness :
  ∃ res,
    graphql Demo.platform Demo.config (Demo.env_hit 0 30 100000) Demo.anonymous
    = (Ok res,
       [EvLatest; EvHash (Spec.hashed_text Demo.anonymous false Demo.public_query);
        EvFind (Spec.derived_key Demo.platform Demo.anonymous false
                  Demo.public_query)]) ∧
    status res = 200 ∧
    body res = Text "{}" ∧
    headers res !! "gcdn-cache" = Some "HIT" ∧
    headers res !! "x-cache" = Some "HIT".
Proof.
  refine (hit_is_served_from_cache Demo.platform Demo.config
            (Demo.env_hit 0 30 100000) Demo.anonymous false Demo.public_query
            (mkFound (Some (mkEntry (object [(Headers.cacheControl, "public")]) "{}"))
                     (Some (mkMetadata 0 30)))
            (mkEntry (object [(Headers.cacheControl, "public")]) "{}") _ _ _).
  - demo_classified.
  - reflexivity.
  - reflexivity.
Defined.

(** The stored entry of a replayed answer has no metadata here. *)
Lemma hit_header_precedence_witness :
  ∃ res,
    (graphql Demo.platform Demo.config
       (Demo.env_replay Demo.stored_public None) Demo.anonymous).1 = Ok res ∧
    (∀ k, k ≠ "age" → k ≠ "gcdn-cache" → k ≠ "x-cache" →
          headers res !! k
          = match defaultResponseHeaders Demo.platform 5000 !! k with
            | Some v => Some v
            | None => entry_headers Demo.stored_public !! k
            end) ∧
    headers res !! "cache-control"
    = entry_headers Demo.stored_public !! "cache-control" ∧
    headers res !! "content-type" = Some "application/json" ∧
    (metadata (mkFound (Some Demo.stored_public) None) = None →
     headers res !! "age" = entry_headers Demo.stored_public !! "age").
Proof.
  refine (hit_header_precedence Demo.platform Demo.config
            (Demo.env_replay Demo.stored_public None) Demo.anonymous false
            Demo.public_query (mkFound (Some Demo.stored_public) None)
            Demo.stored_public _ _ _).
  - demo_classified.
  - reflexivity.
  - reflexivity.
Defined.

(** The origin says no-store and the query is public. *)
Lemma uncacheable_is_passed_through_witness :
  ∃ res,
    graphql Demo.platform Demo.config (Demo.env_miss "no-store") Demo.anonymous
    = (Ok res, [EvLatest; EvHash Demo.public_query;
                EvFind (SHA256 Demo.platform Demo.public_query);
                EvFetch (origin Demo.config) (req_body Demo.anonymous)]) ∧
    body res = Text "{}" ∧
    headers res !! "gcdn-cache" = Some "PASS" ∧
    headers res !! "x-cache" = Some "MISS" ∧
    headers res !! "cache-control"
    = spread_headers Demo.platform (Demo.origin_json "no-store") !! "cache-control".
Proof.
  refine (uncacheable_is_passed_through Demo.platform Demo.config
            (Demo.env_miss "no-store") Demo.anonymous Demo.public_query
            (Demo.origin_json "no-store") "{}" _ _ _ _).
  - demo_classified.
  - demo_misses.
  - demo_origin_json.
  - vm_compute. reflexivity.
Defined.

(** A store that refuses the write: the response is the one of a write
    that succeeds, and the refusal is logged. *)
Lemma store_refusal_is_not_fatal_witness :
  graphql Demo.platform Demo.config (Demo.env_store_down "max-age=60")
    Demo.anonymous
  = (Ok (mkResponse
           (default 200
              (spread_status Demo.platform (Demo.origin_json "max-age=60")))
           (<["gcdn-cache" := "PASS"]>
              (entry_headers
                 (Spec.stored_answer Demo.platform Demo.config
                    (Demo.env_store_down "max-age=60") false
                    (Demo.origin_json "max-age=60") "{}")))
           (Text "{}")),
     [EvLatest;
      EvHash (Spec.hashed_text Demo.anonymous false Demo.public_query);
      EvFind (Spec.derived_key Demo.platform Demo.anonymous false
                Demo.public_query);
      EvFetch (origin Demo.config) (req_body Demo.anonymous);
      EvSave (Spec.derived_key Demo.platform Demo.anonymous false
                Demo.public_query)
        (Spec.stored_answer Demo.platform Demo.config
           (Demo.env_store_down "max-age=60") false
           (Demo.origin_json "max-age=60") "{}")
        (Spec.chosen_maxAge Demo.config (Demo.origin_json "max-age=60"))]
     ++ [EvLog "query could not be stored in cache"])%list.
Proof.
  refine (store_refusal_is_not_fatal Demo.platform Demo.config
            (Demo.env_store_down "max-age=60") Demo.anonymous false
            Demo.public_query (Demo.origin_json "max-age=60") "{}" false
            _ _ _ _ _).
  - demo_classified.
  - demo_misses.
  - demo_origin_json.
  - vm_compute. reflexivity.
  - reflexivity.
Defined.

Lemma stored_snapshot_witness :
  ∃ stored,
    In (EvSave (Spec.derived_key Demo.platform Demo.anonymous false
                  Demo.public_query)
          stored
          (Spec.chosen_maxAge Demo.config (Demo.origin_json "max-age=60")))
       (graphql Demo.platform Demo.config (Demo.env_miss "max-age=60")
          Demo.anonymous).2 ∧
    entry_body stored = "{}" ∧
    entry_headers stored !! "gcdn-cache" = Some "MISS" ∧
    entry_headers stored !! "x-cache" = Some "MISS" ∧
    (∀ res,
       (graphql Demo.platform Demo.config (Demo.env_miss "max-age=60")
          Demo.anonymous).1 = Ok res →
       body res = Text (entry_body stored) ∧
       headers res = <["gcdn-cache" := "PASS"]> (entry_headers stored)).
Proof.
  refine (stored_snapshot Demo.platform Demo.config (Demo.env_miss "max-age=60")
            Demo.anonymous false Demo.public_query
            (Demo.origin_json "max-age=60") "{}" _ _ _ _).
  - demo_classified.
  - demo_misses.
  - demo_origin_json.
  - vm_compute. reflexivity.
Defined.

(** The entry written for the anonymous caller is found later. *)
Lemma stored_entry_is_replayed_witness :
  ∃ res2,
    (graphql Demo.platform Demo.config
       (Demo.env_replay Demo.stored_public (Some (mkMetadata 1000 60)))
       Demo.anonymous).1 = Ok res2 ∧
    body res2 = Text "{}" ∧
    headers res2 !! "cache-control" = Some (cache_control_text "public" 60) ∧
    JS.Int 60
    = Spec.chosen_maxAge Demo.config (Demo.origin_json "max-age=60") ∧
    headers res2 !! "gcdn-cache" = Some "HIT" ∧
    (∀ res1,
       (graphql Demo.platform Demo.config (Demo.env_miss "max-age=60")
          Demo.anonymous).1 = Ok res1 →
       body res2 = body res1 ∧
       headers res2 !! "cache-control" = headers res1 !! "cache-control").
Proof.
  refine (stored_entry_is_replayed Demo.platform Demo.config
            (Demo.env_miss "max-age=60")
            (Demo.env_replay Demo.stored_public (Some (mkMetadata 1000 60)))
            Demo.anonymous Demo.anonymous false false
            Demo.public_query Demo.public_query
            (Demo.origin_json "max-age=60") "{}"
            (SHA256 Demo.platform Demo.public_query) Demo.stored_public 60
            (Some (mkMetadata 1000 60)) _ _ _ _ _ _).
  - demo_classified.
  - demo_misses.
  - demo_origin_json.
  - do 4 right. left. vm_compute. reflexivity.
  - demo_classified.
  - reflexivity.
Defined.

(** The answer to a failing schema store has the default headers. *)
Lemma default_headers_everywhere_witness :
  headers (send 400 (Caught "KV unavailable")
             (caught_headers (defaultResponseHeaders Demo.platform 1000)))
    !! "content-type" = Some "application/json" ∧
  headers (send 400 (Caught "KV unavailable")
             (caught_headers (defaultResponseHeaders Demo.platform 1000)))
    !! "access-control-max-age" = Some "300" ∧
  headers (send 400 (Caught "KV unavailable")
             (caught_headers (defaultResponseHeaders Demo.platform 1000)))
    !! "date" = Some (toUTCString Demo.platform (now_start Demo.env_no_schema)).
Proof.
  refine (default_headers_everywhere Demo.platform Demo.config
            Demo.env_no_schema Demo.anonymous _ _ _).
  - vm_compute. reflexivity.
  - vm_compute. reflexivity.
Defined.

Lemma write_follows_lookup_and_origin_witness :
  ∃ txt tail,
    (graphql Demo.platform Demo.config (Demo.env_miss "max-age=60")
       Demo.anonymous).2
    = EvLatest :: EvHash txt
        :: EvFind (SHA256 Demo.platform Demo.public_query)
        :: EvFetch (origin Demo.config) (req_body Demo.anonymous)
        :: EvSave (SHA256 Demo.platform Demo.public_query)
             Demo.stored_public 60
        :: tail ∧
    SHA256 Demo.platform Demo.public_query = SHA256 Demo.platform txt ∧
    (tail = [] ∨ tail = [EvLog "query could not be stored in cache"]).
Proof.
  refine (write_follows_lookup_and_origin Demo.platform Demo.config
            (Demo.env_miss "max-age=60") Demo.anonymous
            (SHA256 Demo.platform Demo.public_query) Demo.stored_public 60 _).
  do 4 right. left. vm_compute. reflexivity.
Defined.

Lemma stored_ttl_nonneg_witness :
  In (EvSave (SHA256 Demo.platform Demo.public_query) Demo.stored_public 60)
     (graphql Demo.platform Demo.config (Demo.env_miss "max-age=60")
        Demo.anonymous).2 ∧
  Spec.not_negative (JS.Int 60).
Proof.
  assert (Hin :
    In (EvSave (SHA256 Demo.platform Demo.public_query) Demo.stored_public 60)
       (graphql Demo.platform Demo.config (Demo.env_miss "max-age=60")
          Demo.anonymous).2)
    by (do 4 right; left; vm_compute; reflexivity).
  split; [exact Hin|].
  refine (stored_ttl_nonneg Demo.platform Demo.config
            (Demo.env_miss "max-age=60") Demo.anonymous _ _ _ _ Hin).
  vm_compute. discriminate.
Defined.

(** A text that the parser refuses, with the schema store down. *)
Lemma parse_error_is_not_caught_witness :
  graphql Demo.platform Demo.config Demo.env_no_schema Demo.malformed
  = (Throw "Syntax Error", []).
Proof.
  refine (parse_error_is_not_caught Demo.platform Demo.config Demo.malformed
            "Syntax Error" _ _ Demo.env_no_schema).
  - vm_compute. reflexivity.
  - vm_compute. reflexivity.
Defined.

(** A lookup that throws ends the request. *)
Lemma failures_propagate_witness :
  graphql Demo.platform Demo.config Demo.env_lookup_throws Demo.anonymous
  = (Throw "KV unavailable",
     [EvLatest; EvHash (Spec.hashed_text Demo.anonymous false Demo.public_query);
      EvFind (Spec.derived_key Demo.platform Demo.anonymous false
                Demo.public_query)]).
Proof.
  refine (proj1 (failures_propagate Demo.platform Demo.config
            Demo.env_lookup_throws Demo.anonymous false Demo.public_query
            "KV unavailable" _) _).
  - demo_classified.
  - reflexivity.
Defined.

(** The origin says private for a query that touches no private type. *)
Lemma origin_private_is_stored_as_public_witness :
  ∃ stored,
    In (EvSave (SHA256 Demo.platform Demo.public_query) stored
          (Spec.chosen_maxAge Demo.config
             (Demo.origin_json "private, max-age=60")))
       (graphql Demo.platform Demo.config (Demo.env_miss "private, max-age=60")
          Demo.anonymous).2 ∧
    entry_body stored = "{}" ∧
    entry_headers stored !! "cache-control"
    = Some (cache_control_text "public"
              (Spec.chosen_maxAge Demo.config
                 (Demo.origin_json "private, max-age=60"))) ∧
    (∀ res,
       (graphql Demo.platform Demo.config (Demo.env_miss "private, max-age=60")
          Demo.anonymous).1 = Ok res →
       headers res !! "cache-control"
       = Some (cache_control_text "public"
                 (Spec.chosen_maxAge Demo.config
                    (Demo.origin_json "private, max-age=60")))).
Proof.
  refine (origin_private_is_stored_as_public Demo.platform Demo.config
            (Demo.env_miss "private, max-age=60") Demo.anonymous
            Demo.public_query (Demo.origin_json "private, max-age=60") "{}"
            _ _ _ _ _).
  - demo_classified.
  - demo_misses.
  - demo_origin_json.
  - vm_compute. reflexivity.
  - vm_compute. reflexivity.
Defined.

Lemma mutation_is_forwarded_witness :
  ∃ res,
    graphql Demo.platform Demo.config (Demo.env_miss "max-age=60") Demo.liker
    = (Ok res, [EvLatest;
                EvFetch (origin Demo.config) (req_body Demo.liker)]) ∧
    body res = Text "{}" ∧
    headers res !! "gcdn-cache" = Some "PASS" ∧
    headers res !! "x-cache" = Some "MISS".
Proof.
  refine (mutation_is_forwarded Demo.platform Demo.config
            (Demo.env_miss "max-age=60") Demo.liker false Demo.a_mutation
            (Demo.origin_json "max-age=60") "{}" _ _).
  - demo_classified.
  - demo_origin_json.
Defined.
